(** * Tripwire alerting: events, payload renderers and the webhook dispatcher

    A shallow embedding of [alerting/alerting.go] (package [alerting]) and of
    the parts of the Go standard library its behaviour rests on
    ([strings.TrimSpace], [unicode/utf8], [net/url], [time] formatting).

    Go strings are immutable byte sequences: they are modelled by [string],
    whose characters are the 256 byte values.  [len] and slicing count
    bytes, as in Go. *)

From Stdlib Require Import String Ascii ZArith List Lia Bool.
From stdpp Require Import gmap strings.
Import ListNotations.

Open Scope string_scope.
Open Scope Z_scope.

#[global] Arguments String.append !_ _ : simpl nomatch.

(** ** Bytes and slices *)

Definition byteZ (c : ascii) : Z := Z.of_N (N_of_ascii c).

(** [s[i]] for an index known to be in range; reads 0 elsewhere. *)
Definition byteAt (s : string) (i : nat) : Z :=
  match String.get i s with
  | Some c => byteZ c
  | None => 0
  end.

(** [s[i:j]], [s[i:]] and [s[:j]]. *)
Definition slice (s : string) (i j : nat) : string := substring i (j - i) s.
Definition sliceFrom (s : string) (i : nat) : string :=
  substring i (String.length s - i) s.
Definition sliceTo (s : string) (j : nat) : string := substring 0 j s.

(** [strings.Contains]: [sub] occurs in [s]. *)
Definition Contains (s sub : string) : Prop :=
  exists pre post, s = pre ++ sub ++ post.

(** ** Package unicode/utf8 *)

Module utf8.

Definition RuneError : Z := 0xFFFD.
Definition RuneSelf : Z := 0x80.
Definition UTFMax : nat := 4.

Definition maskx : Z := 0x3F.
Definition mask2 : Z := 0x1F.
Definition mask3 : Z := 0x0F.
Definition mask4 : Z := 0x07.
Definition locb : Z := 0x80.
Definition hicb : Z := 0xBF.

(** The table [first] together with [acceptRanges]: what a first byte
    announces. *)
Inductive firstInfo :=
| isASCII
| isInvalid
| isLead (sz : nat) (lo hi : Z).

Definition first (b : Z) : firstInfo :=
  if b <? 0x80 then isASCII
  else if b <? 0xC2 then isInvalid
  else if b <? 0xE0 then isLead 2 locb hicb
  else if b =? 0xE0 then isLead 3 0xA0 hicb
  else if b <? 0xED then isLead 3 locb hicb
  else if b =? 0xED then isLead 3 locb 0x9F
  else if b <? 0xF0 then isLead 3 locb hicb
  else if b =? 0xF0 then isLead 4 0x90 hicb
  else if b <? 0xF4 then isLead 4 locb hicb
  else if b =? 0xF4 then isLead 4 locb 0x8F
  else isInvalid.

Definition DecodeRuneInString (s : string) : Z * nat :=
  let n := String.length s in
  if (n <? 1)%nat then (RuneError, 0%nat) else
  let s0 := byteAt s 0 in
  match first s0 with
  | isASCII => (s0, 1%nat)
  | isInvalid => (RuneError, 1%nat)
  | isLead sz lo hi =>
    if (n <? sz)%nat then (RuneError, 1%nat) else
    let s1 := byteAt s 1 in
    if (s1 <? lo) || (hi <? s1) then (RuneError, 1%nat) else
    if (sz <=? 2)%nat then
      (Z.lor (Z.shiftl (Z.land s0 mask2) 6) (Z.land s1 maskx), 2%nat)
    else
    let s2 := byteAt s 2 in
    if (s2 <? locb) || (hicb <? s2) then (RuneError, 1%nat) else
    if (sz <=? 3)%nat then
      (Z.lor (Z.lor (Z.shiftl (Z.land s0 mask3) 12)
                    (Z.shiftl (Z.land s1 maskx) 6))
             (Z.land s2 maskx), 3%nat)
    else
    let s3 := byteAt s 3 in
    if (s3 <? locb) || (hicb <? s3) then (RuneError, 1%nat) else
    (Z.lor (Z.lor (Z.lor (Z.shiftl (Z.land s0 mask4) 18)
                         (Z.shiftl (Z.land s1 maskx) 12))
                  (Z.shiftl (Z.land s2 maskx) 6))
           (Z.land s3 maskx), 4%nat)
  end.

(** [RuneStart]: the byte is not a continuation byte. *)
Definition RuneStart (b : Z) : bool := negb (Z.land b 0xC0 =? 0x80).

(** The backwards search of [DecodeLastRuneInString]:
    [for start--; start >= lim; start-- { if RuneStart(s[start]) { break } }].
    It inspects at most [UTFMax - 1] bytes. *)
Fixpoint lastRuneStart (fuel : nat) (s : string) (start lim : Z) : Z :=
  match fuel with
  | O => start
  | S fuel' =>
    if start <? lim then start
    else if RuneStart (byteAt s (Z.to_nat start)) then start
    else lastRuneStart fuel' s (start - 1) lim
  end.

Definition DecodeLastRuneInString (s : string) : Z * nat :=
  let end_ := String.length s in
  if (end_ =? 0)%nat then (RuneError, 0%nat) else
  let r := byteAt s (end_ - 1) in
  if r <? RuneSelf then (r, 1%nat) else
  let lim := Z.max 0 (Z.of_nat end_ - Z.of_nat UTFMax) in
  let start := lastRuneStart UTFMax s (Z.of_nat end_ - 2) lim in
  let start := Z.to_nat (Z.max 0 start) in
  let '(r, size) := DecodeRuneInString (slice s start end_) in
  if negb (start + size =? end_)%nat then (RuneError, 1%nat) else (r, size).

End utf8.

(** ** Package unicode *)

Module unicode.

Definition MaxLatin1 : Z := 0xFF.

(** [IsSpace]: the Latin-1 cases, then the [White_Space] range table. *)
Definition IsSpace (r : Z) : bool :=
  if (0 <=? r) && (r <=? MaxLatin1) then
    (r =? 9) || (r =? 10) || (r =? 11) || (r =? 12) || (r =? 13)
    || (r =? 32) || (r =? 0x85) || (r =? 0xA0)
  else
    (r =? 0x1680) || ((0x2000 <=? r) && (r <=? 0x200A))
    || (r =? 0x2028) || (r =? 0x2029) || (r =? 0x202F)
    || (r =? 0x205F) || (r =? 0x3000).

End unicode.

(** ** Package strings *)

Module Strings.

Import utf8 unicode.

(** The table [asciiSpace]. *)
Definition asciiSpace (c : Z) : bool :=
  (c =? 9) || (c =? 10) || (c =? 11) || (c =? 12) || (c =? 13) || (c =? 32).

(** [indexFunc]: [for i, r := range s { if f(r) == truth { return i } }],
    [-1] when the loop runs out.  [rest] is [s[i:]]; [range] decodes one
    rune of it at a time, an invalid byte as [RuneError] of width 1. *)
Fixpoint indexFunc_range (fuel : nat) (rest : string) (i : nat)
    (f : Z -> bool) (truth : bool) : Z :=
  match fuel with
  | O => -1
  | S fuel' =>
    match rest with
    | EmptyString => -1
    | String _ _ =>
      let '(r, size) := DecodeRuneInString rest in
      if Bool.eqb (f r) truth then Z.of_nat i
      else indexFunc_range fuel' (sliceFrom rest size) (i + size) f truth
    end
  end.

Definition indexFunc (s : string) (f : Z -> bool) (truth : bool) : Z :=
  indexFunc_range (String.length s) s 0 f truth.

(** [lastIndexFunc]:
    [for i := len(s); i > 0; { r, size := DecodeLastRuneInString(s[0:i]);
       i -= size; if f(r) == truth { return i } }], then [-1]. *)
Fixpoint lastIndexFunc_loop (fuel : nat) (s : string) (i : nat)
    (f : Z -> bool) (truth : bool) : Z :=
  match fuel with
  | O => -1
  | S fuel' =>
    if (0 <? i)%nat then
      let '(r, size) := DecodeLastRuneInString (sliceTo s i) in
      let i := (i - size)%nat in
      if Bool.eqb (f r) truth then Z.of_nat i
      else lastIndexFunc_loop fuel' s i f truth
    else -1
  end.

Definition lastIndexFunc (s : string) (f : Z -> bool) (truth : bool) : Z :=
  lastIndexFunc_loop (String.length s) s (String.length s) f truth.

Definition TrimLeftFunc (s : string) (f : Z -> bool) : string :=
  let i := indexFunc s f false in
  if i =? -1 then "" else sliceFrom s (Z.to_nat i).

Definition TrimRightFunc (s : string) (f : Z -> bool) : string :=
  let i := lastIndexFunc s f false in
  let i :=
    if (0 <=? i) && (RuneSelf <=? byteAt s (Z.to_nat i)) then
      let '(_, wid) := DecodeRuneInString (sliceFrom s (Z.to_nat i)) in
      i + Z.of_nat wid
    else i + 1 in
  sliceTo s (Z.to_nat i).

Definition TrimFunc (s : string) (f : Z -> bool) : string :=
  TrimRightFunc (TrimLeftFunc s f) f.

(** Outcome of one of the two ASCII scans of [TrimSpace]: the loop ended at
    an index, or it met a non-ASCII byte there. *)
Inductive scan :=
| Stop (i : nat)
| NonASCII (i : nat).

(** [for ; start < len(s); start++ { c := s[start]; ... }];
    [rest] is [s[start:]]. *)
Fixpoint scanLeft (rest : string) (start : nat) : scan :=
  match rest with
  | EmptyString => Stop start
  | String c rest' =>
    if RuneSelf <=? byteZ c then NonASCII start
    else if negb (asciiSpace (byteZ c)) then Stop start
    else scanLeft rest' (S start)
  end.

(** [for ; stop > start; stop-- { c := s[stop-1]; ... }]. *)
Fixpoint scanRight (fuel : nat) (s : string) (start stop : nat) : scan :=
  match fuel with
  | O => Stop stop
  | S fuel' =>
    if (start <? stop)%nat then
      let c := byteAt s (stop - 1) in
      if RuneSelf <=? c then NonASCII stop
      else if negb (asciiSpace c) then Stop stop
      else scanRight fuel' s start (stop - 1)
    else Stop stop
  end.

Definition TrimSpace (s : string) : string :=
  match scanLeft s 0 with
  | NonASCII start => TrimFunc (sliceFrom s start) IsSpace
  | Stop start =>
    match scanRight (String.length s) s start (String.length s) with
    | NonASCII stop => TrimRightFunc (slice s start stop) IsSpace
    | Stop stop => slice s start stop
    end
  end.

Definition HasPrefix (s prefix : string) : bool := String.prefix prefix s.

End Strings.

(** ** Decimal rendering of integers *)

Definition digitChar (d : Z) : ascii := ascii_of_nat (48 + Z.to_nat d).

(** The digits of [u >= 0], most significant first, in front of [acc]. *)
Fixpoint utoa_loop (fuel : nat) (u : Z) (acc : string) : string :=
  match fuel with
  | O => acc
  | S fuel' =>
    let acc' := String (digitChar (u mod 10)) acc in
    if u <? 10 then acc' else utoa_loop fuel' (u / 10) acc'
  end.

Definition utoa (u : Z) : string :=
  utoa_loop (S (Z.to_nat (Z.log2 u))) u "".

(** The verb [%d] of package fmt on an [int]: a minus sign for negative
    values, then the decimal digits. *)
Definition Itoa (x : Z) : string :=
  if x <? 0 then "-" ++ utoa (- x) else utoa x.

Fixpoint zeros (n : nat) : string :=
  match n with
  | O => ""
  | S n' => String "0" (zeros n')
  end.

(** ** Package time *)

Module time.

(** A [Location] is represented by what formatting reads of it at the
    instant formatted: the offset in seconds east of UTC. *)
Record Location := { zoneName : string; zoneOffset : Z }.

Definition UTCLoc : Location := {| zoneName := "UTC"; zoneOffset := 0 |}.

(** A [Time] is an instant, [sec] seconds and [nsec] nanoseconds after
    January 1, year 1, 00:00:00 UTC (the values of the methods [sec()] and
    [nsec()]), together with a location. *)
Record Time := { sec : Z; nsec : Z; loc : Location }.

(** The zero value of [Time]. *)
Definition zeroTime : Time := {| sec := 0; nsec := 0; loc := UTCLoc |}.

Definition IsZero (t : Time) : bool := (sec t =? 0) && (nsec t =? 0).

Definition UTC (t : Time) : Time :=
  {| sec := sec t; nsec := nsec t; loc := UTCLoc |}.

Definition secondsPerDay : Z := 86400.
Definition daysPer400Years : Z := 365 * 400 + 97.
Definition daysPer100Years : Z := 365 * 100 + 24.
Definition daysPer4Years : Z := 365 * 4 + 1.

Definition isLeap (year : Z) : bool :=
  (year mod 4 =? 0) && (negb (year mod 100 =? 0) || (year mod 400 =? 0)).

(** [daysBefore[m]]: days in a non-leap year before month [m + 1]. *)
Definition daysBefore (m : Z) : Z :=
  nth (Z.to_nat m) [0; 31; 59; 90; 120; 151; 181; 212; 243; 273; 304; 334; 365] 365.

(** The first half of [absDate]: the year and the day within the year of
    day number [d], day 0 being January 1 of year 1.  Go moves the epoch back
    to a year that makes every day count non-negative and divides unsigned
    numbers; the floor division of [Z] cuts the same 400-year cycles. *)
Definition absYearDay (d : Z) : Z * Z :=
  let n := d / daysPer400Years in
  let y := 400 * n in
  let d := d - daysPer400Years * n in
  let n := d / daysPer100Years in
  let n := n - Z.shiftr n 2 in
  let y := y + 100 * n in
  let d := d - daysPer100Years * n in
  let n := d / daysPer4Years in
  let y := y + 4 * n in
  let d := d - daysPer4Years * n in
  let n := d / 365 in
  let n := n - Z.shiftr n 2 in
  let y := y + n in
  let d := d - 365 * n in
  (y + 1, d).

(** The second half of [absDate]: the month and the day of the month. *)
Definition absMonthDay (year yday : Z) : Z * Z :=
  if isLeap year && (yday =? 31 + 29 - 1) then (2, 29)
  else
    let day := if isLeap year && (31 + 29 - 1 <? yday) then yday - 1 else yday in
    let month := day / 31 in
    let end_ := daysBefore (month + 1) in
    if end_ <=? day then (month + 2, day - end_ + 1)
    else (month + 1, day - daysBefore month + 1).

Definition absDate (d : Z) : Z * Z * Z :=
  let '(year, yday) := absYearDay d in
  let '(month, day) := absMonthDay year yday in
  (year, month, day).

(** The seconds on the wall clock of [t]'s location since the epoch. *)
Definition abs (t : Time) : Z := sec t + zoneOffset (loc t).

Definition Date_of (t : Time) : Z * Z * Z := absDate (abs t / secondsPerDay).
Definition Hour (t : Time) : Z := (abs t mod secondsPerDay) / 3600.
Definition Minute (t : Time) : Z := (abs t mod 3600) / 60.
Definition Second (t : Time) : Z := abs t mod 60.

(** [appendInt]: the decimal form of [x], zero-padded to [width] digits
    behind the sign. *)
Definition appendInt (x : Z) (width : nat) : string :=
  let u := Z.abs x in
  let digits := utoa u in
  (if x <? 0 then "-" else "")
  ++ zeros (width - String.length digits) ++ digits.

(** The layouts the package uses. *)
Inductive Layout := RFC3339.

(** [Format] with the layout ["2006-01-02T15:04:05Z07:00"]. *)
Definition Format (t : Time) (layout : Layout) : string :=
  match layout with
  | RFC3339 =>
    let '(year, month, day) := Date_of t in
    let offset := zoneOffset (loc t) in
    let zone := Z.quot offset 60 in
    appendInt year 4 ++ "-" ++ appendInt month 2 ++ "-" ++ appendInt day 2
    ++ "T" ++ appendInt (Hour t) 2 ++ ":" ++ appendInt (Minute t) 2
    ++ ":" ++ appendInt (Second t) 2
    ++ (if offset =? 0 then "Z"
        else (if zone <? 0 then "-" else "+")
             ++ appendInt (Z.quot (Z.abs zone) 60) 2 ++ ":"
             ++ appendInt (Z.rem (Z.abs zone) 60) 2)
  end.

(** Days from January 1 of year 1 to the given civil date. *)
Definition daysSinceEpoch (year : Z) : Z :=
  let y := year - 1 in
  365 * y + y / 4 - y / 100 + y / 400.

(** [Date], for arguments in their usual ranges (no normalisation of an
    overflowing month, day or clock field). *)
Definition Date (year month day hour min sec_ nsec_ : Z) (l : Location) : Time :=
  let d := daysSinceEpoch year + daysBefore (month - 1)
           + (if isLeap year && (3 <=? month) then 1 else 0) + (day - 1) in
  {| sec := d * secondsPerDay + hour * 3600 + min * 60 + sec_ - zoneOffset l;
     nsec := nsec_; loc := l |}.

End time.

(** ** Errors *)

(** The dynamic types of the [error] values the package meets; Go's [nil]
    error is [None] in [option error]. *)
Inductive error :=
| errorString (s : string)                  (* errors.New; fmt.Errorf without %w *)
| wrapError (msg : string) (err : error)    (* fmt.Errorf with one %w *)
| EscapeError (s : string)                  (* url.EscapeError *)
| urlError (Op URL : string) (Err : error)  (* *url.Error *).

Module errors.
Definition New (text : string) : error := errorString text.
End errors.

(** ** Package net/url *)

Module url.

(** The fields of [url.URL] that [parse] fills in before it turns to the
    authority and the path; the dispatcher discards the parsed URL. *)
Record URL := {
  Scheme : string;
  Opaque : string;
  RawQuery : string;
  ForceQuery : bool
}.

(** [IsAbs]: the URL has a non-empty scheme. *)
Definition IsAbs (u : URL) : bool := negb (Scheme u =? "")%string.

Fixpoint stringContainsCTLByte (s : string) : bool :=
  match s with
  | EmptyString => false
  | String c s' =>
    let b := byteZ c in
    if (b <? 32) || (b =? 127) then true else stringContainsCTLByte s'
  end.

Definition isLetter (b : Z) : bool :=
  ((97 <=? b) && (b <=? 122)) || ((65 <=? b) && (b <=? 90)).

Definition isDigit (b : Z) : bool := (48 <=? b) && (b <=? 57).

(** The loop of [getScheme]; [rest] is [rawURL[i:]]. *)
Fixpoint getScheme_loop (rawURL rest : string) (i : nat)
    : (string * string) + error :=
  match rest with
  | EmptyString => inl ("", rawURL)
  | String c rest' =>
    let b := byteZ c in
    if isLetter b then getScheme_loop rawURL rest' (S i)
    else if isDigit b || (b =? 43) || (b =? 45) || (b =? 46) then
      if (i =? 0)%nat then inl ("", rawURL)
      else getScheme_loop rawURL rest' (S i)
    else if b =? 58 then
      if (i =? 0)%nat then inr (errors.New "missing protocol scheme")
      else inl (sliceTo rawURL i, sliceFrom rawURL (i + 1))
    else inl ("", rawURL)
  end.

Definition getScheme (rawURL : string) : (string * string) + error :=
  getScheme_loop rawURL rawURL 0.

(** [strings.ToLower] on ASCII letters. *)
Fixpoint ToLower (s : string) : string :=
  match s with
  | EmptyString => ""
  | String c s' =>
    let b := byteZ c in
    String (if (65 <=? b) && (b <=? 90)
            then ascii_of_nat (Z.to_nat (b + 32)) else c) (ToLower s')
  end.

(** [strings.Cut] with a one-byte separator. *)
Fixpoint Cut (s : string) (sep : ascii) : string * string * bool :=
  match s with
  | EmptyString => ("", "", false)
  | String c s' =>
    if Ascii.eqb c sep then ("", s', true)
    else let '(before, after, found) := Cut s' sep in
         (String c before, after, found)
  end.

(** [strings.Count] of a one-byte separator. *)
Fixpoint Count (s : string) (sep : ascii) : nat :=
  match s with
  | EmptyString => O
  | String c s' => ((if Ascii.eqb c sep then 1 else 0) + Count s' sep)%nat
  end.

Definition HasSuffix (s suffix : string) : bool :=
  (String.length suffix <=? String.length s)%nat
  && (sliceFrom s (String.length s - String.length suffix) =? suffix)%string.

Definition ishex (c : ascii) : bool :=
  let b := byteZ c in
  isDigit b || ((97 <=? b) && (b <=? 102)) || ((65 <=? b) && (b <=? 70)).

Definition unhex (c : ascii) : Z :=
  let b := byteZ c in
  if isDigit b then b - 48
  else if (97 <=? b) && (b <=? 102) then b - 97 + 10
  else if (65 <=? b) && (b <=? 70) then b - 65 + 10
  else 0.

(** [unescape] in the mode [encodePath]: every [%] must be followed by two
    hexadecimal digits; nothing else can fail in this mode. *)
Fixpoint unescape (s : string) : string + error :=
  match s with
  | EmptyString => inl ""
  | String c rest =>
    if Ascii.eqb c "%" then
      match rest with
      | String a (String b rest') =>
        if ishex a && ishex b then
          match unescape rest' with
          | inl t => inl (String (ascii_of_nat (Z.to_nat (unhex a * 16 + unhex b))) t)
          | inr e => inr e
          end
        else inr (EscapeError (sliceTo s 3))
      | _ => inr (EscapeError (sliceTo s 3))
      end
    else
      match unescape rest with
      | inl t => inl (String c t)
      | inr e => inr e
      end
  end.

(** [setPath], as far as it can fail. *)
Definition setPath (p : string) : option error :=
  match unescape p with
  | inl _ => None
  | inr e => Some e
  end.

Section Parse.

(** [parseAuthority] checks the userinfo and the host (brackets, port,
    escapes, and in recent releases the IP literal itself).  It is left
    open: only whether it returns an error matters here. *)
Variable parseAuthority : string -> option error.

Definition parse (rawURL : string) (viaRequest : bool) : URL + error :=
  if stringContainsCTLByte rawURL then
    inr (errors.New "net/url: invalid control character in URL")
  else if (rawURL =? "")%string && viaRequest then
    inr (errors.New "empty url")
  else if (rawURL =? "*")%string then
    inl {| Scheme := ""; Opaque := ""; RawQuery := ""; ForceQuery := false |}
  else
  match getScheme rawURL with
  | inr err => inr err
  | inl (scheme, rest) =>
    let scheme := ToLower scheme in
    let '(rest, rawQuery, forceQuery) :=
      if HasSuffix rest "?" && (Count rest "?" =? 1)%nat
      then (sliceTo rest (String.length rest - 1), "", true)
      else let '(before, after, _) := Cut rest "?" in (before, after, false) in
    let u := {| Scheme := scheme; Opaque := ""; RawQuery := rawQuery;
                ForceQuery := forceQuery |} in
    let authorityAndPath :=
      if (negb (scheme =? "")%string
          || (negb viaRequest && negb (Strings.HasPrefix rest "///")))
         && Strings.HasPrefix rest "//"
      then
        let authority := sliceFrom rest 2 in
        let '(authority, rest) :=
          let '(before, after, found) := Cut authority "/" in
          if found then (before, String "/" after) else (authority, "") in
        match parseAuthority authority with
        | Some err => inr err
        | None => match setPath rest with Some err => inr err | None => inl u end
        end
      else match setPath rest with Some err => inr err | None => inl u end in
    if negb (Strings.HasPrefix rest "/") then
      if negb (scheme =? "")%string then
        inl {| Scheme := scheme; Opaque := rest; RawQuery := rawQuery;
               ForceQuery := forceQuery |}
      else if viaRequest then inr (errors.New "invalid URI for request")
      else if existsb (Ascii.eqb ":") (list_ascii_of_string (fst (fst (Cut rest "/"))))
      then inr (errors.New "first path segment in URL cannot contain colon")
      else authorityAndPath
    else authorityAndPath
  end.

Definition ParseRequestURI (rawURL : string) : URL + error :=
  match parse rawURL true with
  | inr err => inr (urlError "parse" rawURL err)
  | inl u => inl u
  end.

End Parse.

End url.

(** ** Package net/http, as far as the dispatcher touches it *)

Module http.

Definition MethodPost : string := "POST".

Record Request := {
  Method : string;
  URL : string;
  Header : gmap string (list string);
  Body : string
}.

(** [Header.Set] for a key already in canonical form. *)
Definition Header_Set (req : Request) (key value : string) : Request :=
  {| Method := Method req; URL := URL req;
     Header := <[key := [value]]> (Header req); Body := Body req |}.

Record Response := { StatusCode : Z }.

(** An [*http.Client], by its method [Do]. *)
Record Client := { Do : Request -> Response + error }.

End http.

(** What a call leaves behind on the network side. *)
Inductive NetEvent :=
| Sent (req : http.Request)   (* the request was handed to [Client.Do] *)
| BodyClosed.                 (* the deferred [resp.Body.Close()] ran *)

(** * Package alerting *)

Import time.

(** Event contains non-secret metadata about a leaked credential finding. *)
Record Event := {
  Repository : string;
  Branch : string;
  CommitSHA : string;
  Rule : string;
  FilePath : string;
  Author : string;
  DetectedAt : Time
}.

Definition Validate (e : Event) : option error :=
  if (Strings.TrimSpace (Repository e) =? "")%string then
    Some (errors.New "repository is required")
  else if (Strings.TrimSpace (Branch e) =? "")%string then
    Some (errors.New "branch is required")
  else if (Strings.TrimSpace (CommitSHA e) =? "")%string then
    Some (errors.New "commit_sha is required")
  else if (Strings.TrimSpace (Rule e) =? "")%string then
    Some (errors.New "rule is required")
  else if (Strings.TrimSpace (FilePath e) =? "")%string then
    Some (errors.New "file_path is required")
  else if (Strings.TrimSpace (Author e) =? "")%string then
    Some (errors.New "author is required")
  else if IsZero (DetectedAt e) then
    Some (errors.New "detected_at is required")
  else None.

Record SlackText := { st_Type : string; st_Text : string }.

Record SlackBlock := { sb_Type : string; sb_Text : SlackText }.

Record SlackPayload := { sp_Text : string; Blocks : list SlackBlock }.

(** The two bytes that stand between the fields in the detail format
    string of the source: U+00A5 in UTF-8 (0xC2 0xA5), followed by [n]. *)
Definition yen : string :=
  String (ascii_of_nat 194) (String (ascii_of_nat 165) "").

Definition shortSHA (event : Event) : string :=
  if (7 <? String.length (CommitSHA event))%nat
  then sliceTo (CommitSHA event) 7
  else CommitSHA event.

Definition BuildSlackPayload (event : Event) : SlackPayload :=
  let shortSHA := shortSHA event in
  let summary :=
    ":rotating_light: Secret detected in " ++ Repository event
    ++ " on " ++ Branch event ++ " (" ++ shortSHA ++ ")" in
  let detail :=
    "*Repo:* `" ++ Repository event
    ++ "`" ++ yen ++ "n*Branch:* `" ++ Branch event
    ++ "`" ++ yen ++ "n*Commit:* `" ++ CommitSHA event
    ++ "`" ++ yen ++ "n*Rule:* `" ++ Rule event
    ++ "`" ++ yen ++ "n*File:* `" ++ FilePath event
    ++ "`" ++ yen ++ "n*Author:* `" ++ Author event
    ++ "`" ++ yen ++ "n*Detected:* `"
    ++ Format (UTC (DetectedAt event)) RFC3339 ++ "`" in
  {| sp_Text := summary;
     Blocks :=
       [ {| sb_Type := "section";
            sb_Text := {| st_Type := "mrkdwn"; st_Text := summary |} |};
         {| sb_Type := "section";
            sb_Text := {| st_Type := "mrkdwn"; st_Text := detail |} |} ] |}.

Record WebhookPayload := {
  wp_Event : string;
  wp_Repository : string;
  wp_Branch : string;
  wp_CommitSHA : string;
  wp_Rule : string;
  wp_FilePath : string;
  wp_Author : string;
  wp_DetectedAt : string
}.

Definition BuildWebhookPayload (event : Event) : WebhookPayload :=
  {| wp_Event := "secret.detected";
     wp_Repository := Repository event;
     wp_Branch := Branch event;
     wp_CommitSHA := CommitSHA event;
     wp_Rule := Rule event;
     wp_FilePath := FilePath event;
     wp_Author := Author event;
     wp_DetectedAt := Format (UTC (DetectedAt event)) RFC3339 |}.

(** The values [sendJSON] receives in its parameter of type [any]. *)
Inductive any :=
| ofSlackPayload (p : SlackPayload)
| ofWebhookPayload (p : WebhookPayload).

Record Sender := { Client : http.Client }.

Section Dispatcher.

(** The standard library behind the dispatcher, left open: the authority
    check of net/url, [strconv.Quote] (the verb [%q] in error texts),
    [json.Marshal], [http.NewRequestWithContext], the default client, and
    the type of contexts. *)
Variable parseAuthority : string -> option error.
Variable Quote : string -> string.
Variable Context : Type.
Variable Marshal : any -> string + error.
Variable NewRequestWithContext :
  Context -> string -> string -> string -> http.Request + error.
Variable DefaultClient : http.Client.

(** The method [Error] of an error value. *)
Fixpoint Error (err : error) : string :=
  match err with
  | errorString s => s
  | wrapError msg _ => msg
  | EscapeError s => "invalid URL escape " ++ Quote s
  | urlError op u e => op ++ " " ++ Quote u ++ ": " ++ Error e
  end.

(** [fmt.Errorf(prefix + "%w", err)]. *)
Definition Errorf_w (prefix : string) (err : error) : error :=
  wrapError (prefix ++ Error err) err.

(** [errors.Unwrap]. *)
Definition Unwrap (err : error) : option error :=
  match err with
  | wrapError _ e => Some e
  | _ => None
  end.

Definition NewSender (client : option http.Client) : Sender :=
  match client with
  | None => {| Client := DefaultClient |}
  | Some c => {| Client := c |}
  end.

Definition sendJSON (s : Sender) (ctx : Context) (webhookURL : string)
    (payload : any) : list NetEvent * option error :=
  if (Strings.TrimSpace webhookURL =? "")%string then
    ([], Some (errors.New "webhook URL is required"))
  else
  match url.ParseRequestURI parseAuthority webhookURL with
  | inr err => ([], Some (Errorf_w "invalid webhook URL: " err))
  | inl _ =>
    match Marshal payload with
    | inr err => ([], Some (Errorf_w "marshal payload: " err))
    | inl body =>
      match NewRequestWithContext ctx http.MethodPost webhookURL body with
      | inr err => ([], Some (Errorf_w "build request: " err))
      | inl req =>
        let req := http.Header_Set req "Content-Type" "application/json" in
        match http.Do (Client s) req with
        | inr err => ([Sent req], Some (Errorf_w "send webhook: " err))
        | inl resp =>
          let code := http.StatusCode resp in
          if (code <? 200) || (300 <=? code) then
            ([Sent req; BodyClosed],
             Some (errors.New ("webhook returned status " ++ Itoa code)))
          else ([Sent req; BodyClosed], None)
        end
      end
    end
  end.

Definition SendSlack (s : Sender) (ctx : Context) (webhookURL : string)
    (event : Event) : list NetEvent * option error :=
  match Validate event with
  | Some err => ([], Some (Errorf_w "invalid event: " err))
  | None => sendJSON s ctx webhookURL (ofSlackPayload (BuildSlackPayload event))
  end.

Definition SendWebhook (s : Sender) (ctx : Context) (webhookURL : string)
    (event : Event) : list NetEvent * option error :=
  match Validate event with
  | Some err => ([], Some (Errorf_w "invalid event: " err))
  | None => sendJSON s ctx webhookURL (ofWebhookPayload (BuildWebhookPayload event))
  end.

End Dispatcher.

(** ** The fixtures of [alerting_test.go] *)

Definition testEvent : Event :=
  {| Repository := "acme/tripwire";
     Branch := "main";
     CommitSHA := "abc1234def5678";
     Rule := "aws-access-key-id";
     FilePath := "config/settings.py";
     Author := "dev@example.com";
     DetectedAt := Date 2026 2 26 12 0 0 0 UTCLoc |}.

(** * Vocabulary of the properties *)

(** ** White space *)

(** A string that holds white space only: read rune by rune from the left,
    as [range] reads it, every rune satisfies [unicode.IsSpace]. *)
Inductive OnlySpace : string -> Prop :=
| OnlySpace_empty : OnlySpace ""
| OnlySpace_rune (s : string) (r : Z) (size : nat) :
    utf8.DecodeRuneInString s = (r, size) ->
    (0 < size)%nat ->
    unicode.IsSpace r = true ->
    OnlySpace (sliceFrom s size) ->
    OnlySpace s.

(** ** Event validation *)

Definition fields (e : Event) : list string :=
  [Repository e; Branch e; CommitSHA e; Rule e; FilePath e; Author e].

(** The checks of section 4.1 of the specification, in its order: what must
    hold of an event, and the error text when it does not. *)
Definition constraints : list ((Event -> bool) * string) :=
  [ (fun e => negb (Strings.TrimSpace (Repository e) =? "")%string,
     "repository is required");
    (fun e => negb (Strings.TrimSpace (Branch e) =? "")%string,
     "branch is required");
    (fun e => negb (Strings.TrimSpace (CommitSHA e) =? "")%string,
     "commit_sha is required");
    (fun e => negb (Strings.TrimSpace (Rule e) =? "")%string,
     "rule is required");
    (fun e => negb (Strings.TrimSpace (FilePath e) =? "")%string,
     "file_path is required");
    (fun e => negb (Strings.TrimSpace (Author e) =? "")%string,
     "author is required");
    (fun e => negb (IsZero (DetectedAt e)),
     "detected_at is required") ].

(** Fail-fast validation as the specification words it: the first
    constraint of the list that is violated, reported alone. *)
Definition firstViolated (e : Event) : option error :=
  match find (fun c => negb (fst c e)) constraints with
  | Some c => Some (errors.New (snd c))
  | None => None
  end.

(** ** The chat renderer *)

(** The one-line summary around the commit reference it shows. *)
Definition summaryLine (event : Event) (shown : string) : string :=
  ":rotating_light: Secret detected in " ++ Repository event
  ++ " on " ++ Branch event ++ " (" ++ shown ++ ")".

(** The text of a block. *)
Definition blockText (b : SlackBlock) : string := st_Text (sb_Text b).

(** ** Time formatting *)

(** Two and four decimal digits, written out. *)
Definition digits2 (x : Z) : string :=
  String (digitChar (x / 10)) (String (digitChar (x mod 10)) "").

Definition digits4 (x : Z) : string :=
  String (digitChar (x / 1000)) (String (digitChar (x / 100 mod 10))
    (String (digitChar (x / 10 mod 10)) (String (digitChar (x mod 10)) ""))).

(** [daysIn]: the length of a month. *)
Definition daysIn (month year : Z) : Z :=
  if (month =? 2) && isLeap year then 29
  else daysBefore month - daysBefore (month - 1).

(** The value of a decimal digit. *)
Definition digitVal (c : ascii) : option Z :=
  let b := byteZ c in
  if url.isDigit b then Some (b - 48) else None.

(** Reads [n] decimal digits off the front of [s]. *)
Fixpoint readDigits (n : nat) (acc : Z) (s : string) : option (Z * string) :=
  match n with
  | O => Some (acc, s)
  | S n' =>
    match s with
    | EmptyString => None
    | String c s' =>
      match digitVal c with
      | Some d => readDigits n' (10 * acc + d) s'
      | None => None
      end
    end
  end.

Definition readChar (c : ascii) (s : string) : option string :=
  match s with
  | String c' s' => if Ascii.eqb c c' then Some s' else None
  | EmptyString => None
  end.

(** A reader for the RFC 3339 [date-time] production with the offset [Z]
    and no fraction of a second:
    [4DIGIT "-" 2DIGIT "-" 2DIGIT "T" 2DIGIT ":" 2DIGIT ":" 2DIGIT "Z"],
    with the month, the day of the month, the hour, the minute and the
    second in their ranges.  It returns the six fields. *)
Definition readRFC3339UTC (s : string) : option (Z * Z * Z * Z * Z * Z) :=
  match readDigits 4 0 s with None => None | Some (year, s) =>
  match readChar "-" s with None => None | Some s =>
  match readDigits 2 0 s with None => None | Some (month, s) =>
  match readChar "-" s with None => None | Some s =>
  match readDigits 2 0 s with None => None | Some (day, s) =>
  match readChar "T" s with None => None | Some s =>
  match readDigits 2 0 s with None => None | Some (hour, s) =>
  match readChar ":" s with None => None | Some s =>
  match readDigits 2 0 s with None => None | Some (minute, s) =>
  match readChar ":" s with None => None | Some s =>
  match readDigits 2 0 s with None => None | Some (second, s) =>
  match readChar "Z" s with None => None | Some s =>
    if (s =? "")%string
       && (1 <=? month) && (month <=? 12)
       && (1 <=? day) && (day <=? daysIn month year)
       && (hour <=? 23) && (minute <=? 59) && (second <=? 59)
    then Some (year, month, day, hour, minute, second)
    else None
  end end end end end end end end end end end end.

(** ** Test doubles, after the servers of [alerting_test.go] *)

Definition quoteChar : ascii := ascii_of_nat 34.

(** Quotes a string that needs no escaping. *)
Definition plainQuote (s : string) : string :=
  String quoteChar (s ++ String quoteChar "").

Definition jsonField (key value : string) : string :=
  plainQuote key ++ ":" ++ value.

(** JSON text of a payload whose strings need no escaping. *)
Definition plainMarshal (payload : any) : string + error :=
  match payload with
  | ofSlackPayload p =>
    let block (b : SlackBlock) :=
      "{" ++ jsonField "type" (plainQuote (sb_Type b)) ++ ","
      ++ jsonField "text"
           ("{" ++ jsonField "type" (plainQuote (st_Type (sb_Text b))) ++ ","
            ++ jsonField "text" (plainQuote (st_Text (sb_Text b))) ++ "}")
      ++ "}" in
    inl ("{" ++ jsonField "text" (plainQuote (sp_Text p)) ++ ","
         ++ jsonField "blocks" ("[" ++ String.concat "," (map block (Blocks p)) ++ "]")
         ++ "}")
  | ofWebhookPayload p =>
    inl ("{" ++ jsonField "event" (plainQuote (wp_Event p)) ++ ","
         ++ jsonField "repository" (plainQuote (wp_Repository p)) ++ ","
         ++ jsonField "branch" (plainQuote (wp_Branch p)) ++ ","
         ++ jsonField "commit_sha" (plainQuote (wp_CommitSHA p)) ++ ","
         ++ jsonField "rule" (plainQuote (wp_Rule p)) ++ ","
         ++ jsonField "file_path" (plainQuote (wp_FilePath p)) ++ ","
         ++ jsonField "author" (plainQuote (wp_Author p)) ++ ","
         ++ jsonField "detected_at" (plainQuote (wp_DetectedAt p)) ++ "}")
  end.

(** A request as [http.NewRequestWithContext] builds it from a URL that
    parses. *)
Definition plainRequest (ctx : unit) (method rawURL body : string)
    : http.Request + error :=
  inl {| http.Method := method; http.URL := rawURL;
         http.Header := ∅; http.Body := body |}.

(** An authority check that lets every authority through. *)
Definition anyAuthority (authority : string) : option error := None.

(** A server that replies with the given status to every request. *)
Definition serverReplying (status : Z) : Sender :=
  {| Client := {| http.Do := fun _ => inl {| http.StatusCode := status |} |} |}.

Definition testSendSlack : Sender -> unit -> string -> Event -> list NetEvent * option error :=
  SendSlack anyAuthority plainQuote unit plainMarshal plainRequest.

Definition testSendWebhook : Sender -> unit -> string -> Event -> list NetEvent * option error :=
  SendWebhook anyAuthority plainQuote unit plainMarshal plainRequest.

(** ** What the URL check lets through *)

(** A well-formed absolute URL: it parses and has a scheme ([IsAbs]). *)
Definition WellFormedAbsoluteURL (parseAuthority : string -> option error)
    (rawURL : string) : Prop :=
  exists u, url.ParseRequestURI parseAuthority rawURL = inl u
            /\ url.IsAbs u = true.

(** The destination passes the second check of [sendJSON]. *)
Definition AcceptedURL (parseAuthority : string -> option error)
    (rawURL : string) : Prop :=
  exists u, url.ParseRequestURI parseAuthority rawURL = inl u.

(** ** Outcomes of a send *)

Section Outcomes.

Variable parseAuthority : string -> option error.
Variable Quote : string -> string.
Variable Context : Type.
Variable Marshal : any -> string + error.
Variable NewRequestWithContext :
  Context -> string -> string -> string -> http.Request + error.

(** The errors of the URL stage of [sendJSON]. *)
Definition URLError (err : error) : Prop :=
  err = errors.New "webhook URL is required"
  \/ exists inner, err = Errorf_w Quote "invalid webhook URL: " inner.

(** The call failed on the destination URL, before any network attempt. *)
Definition RejectsURL (res : list NetEvent * option error) : Prop :=
  fst res = [] /\ exists err, snd res = Some err /\ URLError err.

(** The request for [payload] reached the client and [resp] came back. *)
Definition Delivered (s : Sender) (ctx : Context) (webhookURL : string)
    (payload : any) (resp : http.Response) : Prop :=
  Strings.TrimSpace webhookURL <> ""
  /\ AcceptedURL parseAuthority webhookURL
  /\ exists body req,
       Marshal payload = inl body
       /\ NewRequestWithContext ctx http.MethodPost webhookURL body = inl req
       /\ http.Do (Client s)
            (http.Header_Set req "Content-Type" "application/json")
          = inl resp.

(** [res] is what one of the two sends returns for [e], and [payload] the
    payload that send renders. *)
Definition IsSend (s : Sender) (ctx : Context) (webhookURL : string)
    (e : Event) (payload : any) (res : list NetEvent * option error) : Prop :=
  (payload = ofSlackPayload (BuildSlackPayload e)
   /\ res = SendSlack parseAuthority Quote Context Marshal
              NewRequestWithContext s ctx webhookURL e)
  \/ (payload = ofWebhookPayload (BuildWebhookPayload e)
      /\ res = SendWebhook parseAuthority Quote Context Marshal
                 NewRequestWithContext s ctx webhookURL e).

End Outcomes.

(** ** Stages of a send *)

(** The texts [fmt.Errorf] puts in front of a wrapped cause. *)
Definition wrapPrefixes : list string :=
  [ "invalid event: "; "invalid webhook URL: "; "marshal payload: ";
    "build request: "; "send webhook: " ].

(** The request [sendJSON] hands to the client, from the one
    [NewRequestWithContext] built. *)
Definition jsonRequest (req : http.Request) : http.Request :=
  http.Header_Set req "Content-Type" "application/json".

(** ** More events and texts *)

(** The detail text of [testEvent], as the code renders it. *)
Definition testDetail : string :=
  "*Repo:* `acme/tripwire`" ++ yen ++ "n*Branch:* `main`"
  ++ yen ++ "n*Commit:* `abc1234def5678`"
  ++ yen ++ "n*Rule:* `aws-access-key-id`"
  ++ yen ++ "n*File:* `config/settings.py`"
  ++ yen ++ "n*Author:* `dev@example.com`"
  ++ yen ++ "n*Detected:* `2026-02-26T12:00:00Z`".

(** The string has a line feed in it. *)
Definition hasLineFeed (s : string) : bool :=
  existsb (fun c => byteZ c =? 10) (list_ascii_of_string s).

(** The event of [TestEventValidate]: the test event without its
    repository. *)
Definition noRepository : Event :=
  {| Repository := ""; Branch := Branch testEvent;
     CommitSHA := CommitSHA testEvent; Rule := Rule testEvent;
     FilePath := FilePath testEvent; Author := Author testEvent;
     DetectedAt := DetectedAt testEvent |}.

(** A space, a no-break space (U+00A0) and a tab. *)
Definition whiteSpace : string :=
  String " " (String (ascii_of_nat 194) (String (ascii_of_nat 160)
    (String (ascii_of_nat 9) ""))).

(** The test event with a rule of white space, no branch and no time. *)
Definition blankRule : Event :=
  {| Repository := Repository testEvent; Branch := "";
     CommitSHA := CommitSHA testEvent; Rule := whiteSpace;
     FilePath := FilePath testEvent; Author := Author testEvent;
     DetectedAt := zeroTime |}.

(** The request of [testSendWebhook] for [testEvent] and the address of a
    local test server. *)
Definition testURL : string := "http://127.0.0.1:8080".

Definition testRequest : http.Request :=
  jsonRequest
    {| http.Method := http.MethodPost; http.URL := testURL;
       http.Header := ∅;
       http.Body :=
         match plainMarshal (ofWebhookPayload (BuildWebhookPayload testEvent)) with
         | inl body => body
         | inr _ => ""
         end |}.

(** The instant of [testEvent], on a clock five and a half hours east. *)
Definition testEventEast : Event :=
  {| Repository := Repository testEvent; Branch := Branch testEvent;
     CommitSHA := CommitSHA testEvent; Rule := Rule testEvent;
     FilePath := FilePath testEvent; Author := Author testEvent;
     DetectedAt := Date 2026 2 26 17 30 0 0
                     {| zoneName := "IST"; zoneOffset := 19800 |} |}.

(** * Facts about strings *)

Section StringFacts.


Lemma append_assoc (a b c : string) : (a ++ b) ++ c = a ++ (b ++ c).
Proof. induction a as [|x a IH]; simpl; [reflexivity | now rewrite IH]. Qed.

Lemma substring_zero_len (s : string) (n : nat) : substring n 0 s = "".
Proof.
  revert n; induction s as [|c s IH]; intros [|n]; simpl; auto.
Qed.

Lemma substring_whole (s : string) : substring 0 (String.length s) s = s.
Proof. induction s as [|c s IH]; simpl; [reflexivity | now rewrite IH]. Qed.

Lemma sliceFrom_zero (s : string) : sliceFrom s 0 = s.
Proof. unfold sliceFrom. rewrite Nat.sub_0_r. apply substring_whole. Qed.

Lemma sliceFrom_cons (c : ascii) (s : string) (n : nat) :
  sliceFrom (String c s) (S n) = sliceFrom s n.
Proof. reflexivity. Qed.

Lemma length_sliceFrom (s : string) (n : nat) :
  String.length (sliceFrom s n) = (String.length s - n)%nat.
Proof.
  revert n; induction s as [|c s IH]; intros [|n]; try reflexivity.
  - rewrite sliceFrom_zero. reflexivity.
  - rewrite sliceFrom_cons. simpl. apply IH.
Qed.

(** A prefix of [n] bytes, for [n] within the string. *)
Lemma sliceTo_prefix (s : string) (n : nat) :
  (n <= String.length s)%nat ->
  String.length (sliceTo s n) = n /\ exists rest, s = sliceTo s n ++ rest.
Proof.
  unfold sliceTo. revert n; induction s as [|c s IH]; intros [|n] Hn; simpl in *.
  - split; [reflexivity | now exists ""].
  - lia.
  - split; [reflexivity | now exists (String c s)].
  - destruct (IH n ltac:(lia)) as [Hlen [rest Hrest]].
    split; [now rewrite Hlen | exists rest; now rewrite <- Hrest].
Qed.

Lemma Contains_intro (pre sub post : string) : Contains (pre ++ sub ++ post) sub.
Proof. now exists pre, post. Qed.

Lemma eqb_empty_false (s : string) : (s =? "")%string = false <-> s <> "".
Proof.
  destruct (String.eqb_spec s ""); split; congruence.
Qed.

End StringFacts.

(** * White space is blank *)

Section TrimSpaceFacts.

Import utf8 unicode Strings.

Lemma byteZ_range (c : ascii) : 0 <= byteZ c < 256.
Proof.
  unfold byteZ. pose proof (N_ascii_bounded c). lia.
Qed.

Lemma decode_ascii (c : ascii) (rest : string) :
  byteZ c < RuneSelf ->
  DecodeRuneInString (String c rest) = (byteZ c, 1%nat).
Proof.
  intros Hc. unfold DecodeRuneInString, byteAt. simpl String.get. cbv iota.
  change (String.length (String c rest)) with (S (String.length rest)).
  replace (S (String.length rest) <? 1)%nat with false
    by (symmetry; apply Nat.ltb_ge; lia).
  unfold first. unfold RuneSelf in Hc.
  replace (byteZ c <? 128) with true by (symmetry; apply Z.ltb_lt; lia).
  reflexivity.
Qed.

Lemma IsSpace_ascii (b : Z) :
  0 <= b < RuneSelf -> IsSpace b = asciiSpace b.
Proof.
  intros Hb. unfold IsSpace, asciiSpace, MaxLatin1, RuneSelf in *.
  replace ((0 <=? b) && (b <=? 255)) with true
    by (symmetry; apply andb_true_iff; split; apply Z.leb_le; lia).
  replace (b =? 133) with false by (symmetry; apply Z.eqb_neq; lia).
  replace (b =? 160) with false by (symmetry; apply Z.eqb_neq; lia).
  now rewrite !orb_false_r.
Qed.

(** The first loop of [TrimSpace] on white space: it runs to the end, or
    it stops at a non-ASCII byte with white space only behind it. *)
Lemma scanLeft_OnlySpace (s : string) :
  forall i, OnlySpace s ->
    scanLeft s i = Stop (i + String.length s)
    \/ exists j, scanLeft s i = NonASCII (i + j) /\ OnlySpace (sliceFrom s j).
Proof.
  induction s as [|c rest IH]; intros i Hs.
  - left. simpl. f_equal. lia.
  - simpl scanLeft. destruct (RuneSelf <=? byteZ c) eqn:Hself.
    + right. exists 0%nat. rewrite sliceFrom_zero, Nat.add_0_r. now split.
    + apply Z.leb_gt in Hself.
      inversion Hs as [|s' r size Hdec Hsize Hsp Hrest Heq]; subst.
      rewrite decode_ascii in Hdec by assumption.
      injection Hdec as <- <-.
      rewrite IsSpace_ascii in Hsp by (pose proof (byteZ_range c); lia).
      rewrite Hsp. simpl negb. cbv iota.
      rewrite sliceFrom_cons, sliceFrom_zero in Hrest.
      destruct (IH (S i) Hrest) as [Hstop | [j [Hj Hsp']]].
      * left. rewrite Hstop. simpl. f_equal. lia.
      * right. exists (S j). rewrite Hj. rewrite sliceFrom_cons.
        split; [f_equal; lia | assumption].
Qed.

Lemma indexFunc_range_OnlySpace (fuel : nat) :
  forall s i, (String.length s <= fuel)%nat -> OnlySpace s ->
    indexFunc_range fuel s i IsSpace false = -1.
Proof.
  induction fuel as [|fuel IH]; intros s i Hlen Hs; [reflexivity|].
  destruct s as [|c rest]; [reflexivity|].
  inversion Hs as [|s' r size Hdec Hsize Hsp Hrest Heq]; subst.
  cbn [indexFunc_range]. rewrite Hdec, Hsp. cbn [Bool.eqb].
  apply IH; [|assumption].
  rewrite length_sliceFrom. simpl in *. lia.
Qed.

Lemma TrimFunc_OnlySpace (s : string) :
  OnlySpace s -> TrimFunc s IsSpace = "".
Proof.
  intros Hs. unfold TrimFunc, TrimLeftFunc, indexFunc.
  rewrite indexFunc_range_OnlySpace by auto. reflexivity.
Qed.

(** White space only is blank: [TrimSpace] leaves nothing of it. *)
Lemma TrimSpace_OnlySpace (s : string) :
  OnlySpace s -> TrimSpace s = "".
Proof.
  intros Hs. unfold TrimSpace.
  destruct (scanLeft_OnlySpace s 0 Hs) as [Hstop | [j [Hj Hsp]]].
  - rewrite Hstop. simpl Nat.add.
    replace (scanRight (String.length s) s (String.length s) (String.length s))
      with (Stop (String.length s)).
    + unfold slice. rewrite Nat.sub_diag. apply substring_zero_len.
    + destruct (String.length s) as [|n] eqn:E; [reflexivity|].
      simpl. now rewrite Nat.ltb_irrefl.
  - rewrite Hj. simpl Nat.add. now apply TrimFunc_OnlySpace.
Qed.

End TrimSpaceFacts.

(** * Event validation *)

Section ValidateFacts.

Lemma find_first {A : Type} (f : A -> bool) (l : list A) (x : A) :
  find f l = Some x ->
  exists pre post, l = (pre ++ x :: post)%list /\ f x = true
                   /\ Forall (fun y => f y = false) pre.
Proof.
  induction l as [|a l IH]; simpl; [discriminate|].
  destruct (f a) eqn:Hfa.
  - intros [= ->]. exists [], l. auto.
  - intros Hfind. destruct (IH Hfind) as (pre & post & -> & Hx & Hpre).
    exists (a :: pre), post. repeat split; auto.
Qed.

Lemma Validate_firstViolated (e : Event) : Validate e = firstViolated e.
Proof.
  unfold Validate, firstViolated, constraints. cbn [find fst snd].
  repeat match goal with
  | |- context [(?a =? ?b)%string] => destruct (a =? b)%string; cbn [negb]; try reflexivity
  end.
  destruct (IsZero (DetectedAt e)); reflexivity.
Qed.

Lemma Validate_blank_field (e : Event) (f : string) :
  In f (fields e) -> Strings.TrimSpace f = "" -> Validate e <> None.
Proof.
  intros Hin Hblank. unfold Validate.
  repeat match goal with
  | |- context [if (?a =? "")%string then _ else _] =>
      destruct (String.eqb_spec a ""); [discriminate|]
  end.
  simpl in Hin. intuition (subst; congruence).
Qed.

Lemma Validate_ok_fields (e : Event) :
  Validate e = None -> Forall (fun f => f <> "") (fields e).
Proof.
  intros Hv. apply List.Forall_forall. intros f Hin ->.
  now apply (Validate_blank_field e "" Hin).
Qed.

End ValidateFacts.

(** C1. [Validate] returns [nil] exactly when each of the six string
    fields is non-empty after [strings.TrimSpace] and the detection
    timestamp is not the zero time; so an event with every field populated
    and a set timestamp passes, and an event with a field of white space
    only (a blank field) is rejected. *)
Theorem Validate_ok_iff (e : Event) :
  (Validate e = None <->
     Strings.TrimSpace (Repository e) <> ""
     /\ Strings.TrimSpace (Branch e) <> ""
     /\ Strings.TrimSpace (CommitSHA e) <> ""
     /\ Strings.TrimSpace (Rule e) <> ""
     /\ Strings.TrimSpace (FilePath e) <> ""
     /\ Strings.TrimSpace (Author e) <> ""
     /\ IsZero (DetectedAt e) = false)
  /\ (forall f, In f (fields e) -> OnlySpace f ->
        Strings.TrimSpace f = "" /\ Validate e <> None).
Proof.
  split.
  - unfold Validate.
    repeat match goal with
    | |- context [if (?a =? "")%string then _ else _] =>
        destruct (String.eqb_spec a "");
        [split; [discriminate | intros H; exfalso; tauto]|]
    end.
    destruct (IsZero (DetectedAt e)).
    + split; [discriminate | intros H; exfalso; intuition discriminate].
    + split; [intros _; repeat split; assumption | reflexivity].
  - intros f Hin Hsp. pose proof (TrimSpace_OnlySpace f Hsp) as Hblank.
    split; [assumption | now apply (Validate_blank_field e f)].
Qed.

(** C9. [Validate] walks the checks in the order repository, branch,
    commit identifier, rule, file path, author, timestamp: it agrees with
    reporting the first violated constraint of that list, and the error of
    an invalid event names one constraint, which is violated while all
    those before it hold. *)
Theorem Validate_first_violation (e : Event) :
  Validate e = firstViolated e
  /\ map snd constraints =
       [ "repository is required"; "branch is required";
         "commit_sha is required"; "rule is required";
         "file_path is required"; "author is required";
         "detected_at is required" ]
  /\ (forall err, Validate e = Some err ->
        exists pre c post,
          constraints = (pre ++ c :: post)%list
          /\ fst c e = false
          /\ Forall (fun c' => fst c' e = true) pre
          /\ err = errors.New (snd c)).
Proof.
  split; [apply Validate_firstViolated|]. split; [reflexivity|].
  intros err Herr. rewrite Validate_firstViolated in Herr.
  unfold firstViolated in Herr.
  destruct (find _ constraints) as [c|] eqn:Hfind; [|discriminate].
  injection Herr as <-.
  destruct (find_first _ _ _ Hfind) as (pre & post & Hsplit & Hc & Hpre).
  exists pre, c, post. repeat split; auto.
  - now apply negb_true_iff in Hc.
  - eapply List.Forall_impl; [|exact Hpre]. intros c' Hc'.
    now apply negb_false_iff in Hc'.
Qed.

(** * The chat renderer *)

Section SlackFacts.

Lemma BuildSlackPayload_summary (e : Event) :
  sp_Text (BuildSlackPayload e) = summaryLine e (shortSHA e).
Proof. reflexivity. Qed.

Lemma shortSHA_long (e : Event) :
  (7 < String.length (CommitSHA e))%nat -> shortSHA e = sliceTo (CommitSHA e) 7.
Proof.
  intros H. unfold shortSHA. apply Nat.ltb_lt in H. now rewrite H.
Qed.

Lemma shortSHA_short (e : Event) :
  (String.length (CommitSHA e) <= 7)%nat -> shortSHA e = CommitSHA e.
Proof.
  intros H. unfold shortSHA. apply Nat.ltb_ge in H. now rewrite H.
Qed.

End SlackFacts.

(** C3. The summary line shows, between its parentheses, exactly the first
    7 bytes of a commit identifier longer than 7 (lengths and slices count
    bytes, as [len] and [s[:7]] do), and the identifier unchanged when its
    length is at most 7. *)
Theorem summary_shortens_commit (e : Event) :
  exists shown,
    sp_Text (BuildSlackPayload e) = summaryLine e shown
    /\ ((7 < String.length (CommitSHA e))%nat ->
          String.length shown = 7%nat
          /\ exists rest, CommitSHA e = shown ++ rest)
    /\ ((String.length (CommitSHA e) <= 7)%nat -> shown = CommitSHA e).
Proof.
  exists (shortSHA e). split; [apply BuildSlackPayload_summary|]. split.
  - intros Hlong. rewrite (shortSHA_long e Hlong).
    apply sliceTo_prefix. lia.
  - apply shortSHA_short.
Qed.

(** C4. The chat payload holds exactly two blocks, the summary block
    first and the detail block second, and the detail block carries the
    whole commit identifier, whatever the summary shows of it. *)
Theorem slack_two_blocks (e : Event) :
  exists summary detail,
    Blocks (BuildSlackPayload e) = [summary; detail]
    /\ blockText summary = summaryLine e (shortSHA e)
    /\ Contains (blockText detail) ("*Commit:* `" ++ CommitSHA e ++ "`")
    /\ Contains (blockText detail) (CommitSHA e).
Proof.
  eexists _, _. split; [reflexivity|]. split; [reflexivity|].
  unfold blockText; cbn [sb_Text st_Text]. split.
  - exists ("*Repo:* `" ++ Repository e ++ "`" ++ yen ++ "n*Branch:* `"
            ++ Branch e ++ "`" ++ yen ++ "n").
    eexists. rewrite !append_assoc. cbn [String.append]. reflexivity.
  - exists ("*Repo:* `" ++ Repository e ++ "`" ++ yen ++ "n*Branch:* `"
            ++ Branch e ++ "`" ++ yen ++ "n*Commit:* `").
    eexists. rewrite !append_assoc. cbn [String.append]. reflexivity.
Qed.

(** * Time formatting *)

Section TimeFacts.

(** [0 <= x < n] as membership in an enumeration, to check a fact about
    every such [x] by evaluation. *)
Lemma below_enumerated (n : Z) (P : Z -> bool) :
  forallb P (map Z.of_nat (seq 0 (Z.to_nat n))) = true ->
  forall x, 0 <= x < n -> P x = true.
Proof.
  intros Hall x Hx. rewrite forallb_forall in Hall. apply Hall.
  apply in_map_iff. exists (Z.to_nat x). split; [lia|].
  apply in_seq. lia.
Qed.

Lemma appendInt_2 (x : Z) : 0 <= x < 100 -> appendInt x 2 = digits2 x.
Proof.
  intros Hx. apply String.eqb_eq.
  apply (below_enumerated 100 (fun x => (appendInt x 2 =? digits2 x)%string));
    [vm_compute; reflexivity | assumption].
Qed.

Lemma appendInt_4 (x : Z) : 0 <= x < 10000 -> appendInt x 4 = digits4 x.
Proof.
  intros Hx. apply String.eqb_eq.
  apply (below_enumerated 10000 (fun x => (appendInt x 4 =? digits4 x)%string));
    [vm_compute; reflexivity | assumption].
Qed.

Lemma digitVal_digitChar (d : Z) : 0 <= d < 10 -> digitVal (digitChar d) = Some d.
Proof.
  intros Hd.
  assert (H : (match digitVal (digitChar d) with
               | Some v => v =? d | None => false end) = true).
  { apply (below_enumerated 10
             (fun d => match digitVal (digitChar d) with
                       | Some v => v =? d | None => false end));
      [vm_compute; reflexivity | assumption]. }
  destruct (digitVal (digitChar d)) as [v|]; [|discriminate].
  apply Z.eqb_eq in H. now subst.
Qed.

Lemma readDigits_digits2 (x : Z) (rest : string) :
  0 <= x < 100 -> readDigits 2 0 (digits2 x ++ rest) = Some (x, rest).
Proof.
  intros Hx. unfold digits2. cbn [String.append readDigits].
  assert (H1 : 0 <= x / 10 < 10) by (Z.div_mod_to_equations; lia).
  assert (H2 : 0 <= x mod 10 < 10) by (Z.div_mod_to_equations; lia).
  rewrite !digitVal_digitChar by assumption.
  do 2 f_equal. Z.div_mod_to_equations; lia.
Qed.

Lemma readDigits_digits4 (x : Z) (rest : string) :
  0 <= x < 10000 -> readDigits 4 0 (digits4 x ++ rest) = Some (x, rest).
Proof.
  intros Hx. unfold digits4. cbn [String.append readDigits].
  assert (H1 : 0 <= x / 1000 < 10) by (Z.div_mod_to_equations; lia).
  assert (H2 : 0 <= x / 100 mod 10 < 10) by (Z.div_mod_to_equations; lia).
  assert (H3 : 0 <= x / 10 mod 10 < 10) by (Z.div_mod_to_equations; lia).
  assert (H4 : 0 <= x mod 10 < 10) by (Z.div_mod_to_equations; lia).
  rewrite !digitVal_digitChar by assumption.
  do 2 f_equal. Z.div_mod_to_equations; lia.
Qed.

End TimeFacts.

Section CalendarFacts.

Lemma isLeap_true (y : Z) :
  y mod 4 = 0 -> (y mod 100 <> 0 \/ y mod 400 = 0) -> isLeap y = true.
Proof.
  intros H4 H100. unfold isLeap.
  apply andb_true_iff. split; [now apply Z.eqb_eq|].
  apply orb_true_iff. destruct H100 as [H|H].
  - left. apply negb_true_iff. now apply Z.eqb_neq.
  - right. now apply Z.eqb_eq.
Qed.

(** The day within the year is a day of that year: day 365 only exists in
    a leap year. *)
Lemma absYearDay_range (d : Z) :
  0 <= snd (absYearDay d) <= 365
  /\ (snd (absYearDay d) = 365 -> isLeap (fst (absYearDay d)) = true).
Proof.
  unfold absYearDay, daysPer400Years, daysPer100Years, daysPer4Years.
  cbv zeta. cbn [fst snd].
  rewrite !Z.shiftr_div_pow2 by lia. change (2 ^ 2) with 4.
  split.
  - Z.div_mod_to_equations; lia.
  - intros H. apply isLeap_true.
    + Z.div_mod_to_equations; lia.
    + Z.div_mod_to_equations; lia.
Qed.

Lemma month_estimate (day : Z) :
  0 <= day <= 364 ->
  31 * (day / 31) <= day < 31 * (day / 31) + 31
  /\ In (day / 31) [0; 1; 2; 3; 4; 5; 6; 7; 8; 9; 10; 11].
Proof.
  intros Hday. split; [Z.div_mod_to_equations; lia|].
  assert (H : 0 <= day / 31 <= 11) by (Z.div_mod_to_equations; lia).
  cbn [In]. lia.
Qed.

(** Evaluates the month table at the constants of the goal and of [H]. *)
Ltac eval_daysBefore :=
  repeat match goal with
  | |- context [daysBefore ?x] =>
      let v := eval vm_compute in (daysBefore x) in
      lazymatch v with Z0 => idtac | Z.pos _ => idtac end;
      change (daysBefore x) with v
  | H : context [daysBefore ?x] |- _ =>
      let v := eval vm_compute in (daysBefore x) in
      lazymatch v with Z0 => idtac | Z.pos _ => idtac end;
      change (daysBefore x) with v in H
  end.

(** Settles one month: the comparison in [H], then the month length. *)
Ltac calendar_case H Hleap :=
  eval_daysBefore;
  match type of H with
  | context [?a <=? ?b] => destruct (Z.leb_spec a b)
  end;
  injection H as <- <-;
  unfold daysIn; rewrite Hleap; eval_daysBefore;
  match goal with
  | |- context [?a =? ?b] => destruct (Z.eqb_spec a b)
  end;
  cbn [andb]; lia.

Lemma absMonthDay_range (year yday month day : Z) :
  0 <= yday <= 365 -> (yday = 365 -> isLeap year = true) ->
  absMonthDay year yday = (month, day) ->
  1 <= month <= 12 /\ 1 <= day <= daysIn month year.
Proof.
  intros Hy H365 H. unfold absMonthDay in H.
  destruct (isLeap year) eqn:Hleap; cbn [andb] in H.
  - destruct (Z.eqb_spec yday (31 + 29 - 1)) as [H59|H59].
    { injection H as <- <-. unfold daysIn. rewrite Hleap. cbn. lia. }
    destruct (Z.ltb_spec (31 + 29 - 1) yday) as [Hafter|Hafter].
    + destruct (month_estimate (yday - 1) ltac:(lia)) as [Hd Hm].
      set (d := yday - 1) in *. assert (Hday : 59 <= d <= 364) by (subst d; lia).
      clearbody d. set (m := d / 31) in *. clearbody m.
      cbn [In] in Hm. repeat (destruct Hm as [<- | Hm]); try contradiction;
        calendar_case H Hleap.
    + destruct (month_estimate yday ltac:(lia)) as [Hd Hm].
      set (m := yday / 31) in *. clearbody m.
      cbn [In] in Hm. repeat (destruct Hm as [<- | Hm]); try contradiction;
        calendar_case H Hleap.
  - assert (H364 : yday <= 364)
      by (destruct (Z.eq_dec yday 365); [intuition congruence | lia]).
    destruct (month_estimate yday ltac:(lia)) as [Hd Hm].
    set (m := yday / 31) in *. clearbody m.
    cbn [In] in Hm. repeat (destruct Hm as [<- | Hm]); try contradiction;
      calendar_case H Hleap.
Qed.

Lemma absDate_range (d year month day : Z) :
  absDate d = (year, month, day) ->
  1 <= month <= 12 /\ 1 <= day <= daysIn month year.
Proof.
  unfold absDate. intros H.
  pose proof (absYearDay_range d) as [Hy H365].
  destruct (absYearDay d) as [y yday]. cbn [fst snd] in *.
  destruct (absMonthDay y yday) as [m dd] eqn:Hmd.
  injection H as <- <- <-.
  exact (absMonthDay_range y yday m dd Hy H365 Hmd).
Qed.

Lemma clock_range (t : Time) :
  0 <= Hour t <= 23 /\ 0 <= Minute t <= 59 /\ 0 <= Second t <= 59.
Proof.
  unfold Hour, Minute, Second, secondsPerDay.
  repeat split; Z.div_mod_to_equations; lia.
Qed.

Lemma readChar_cons (c : ascii) (s : string) :
  readChar c (String c s) = Some s.
Proof. cbn [readChar]. now rewrite Ascii.eqb_refl. Qed.

(** In its RFC 3339 range of years, a time formatted in UTC reads back as
    an RFC 3339 [date-time] whose fields are those of the time. *)
Lemma Format_UTC_reads_back (t : Time) (year month day : Z) :
  Date_of (UTC t) = (year, month, day) ->
  0 <= year <= 9999 ->
  Format (UTC t) RFC3339
    = digits4 year ++ "-" ++ digits2 month ++ "-" ++ digits2 day ++ "T"
      ++ digits2 (Hour (UTC t)) ++ ":" ++ digits2 (Minute (UTC t)) ++ ":"
      ++ digits2 (Second (UTC t)) ++ "Z"
  /\ readRFC3339UTC (Format (UTC t) RFC3339)
      = Some (year, month, day, Hour (UTC t), Minute (UTC t), Second (UTC t)).
Proof.
  intros Hdate Hyear.
  pose proof (absDate_range _ _ _ _ Hdate) as [Hmonth Hday].
  pose proof (clock_range (UTC t)) as (Hh & Hmi & Hs).
  assert (Hday31 : day <= 31).
  { revert Hday. unfold daysIn. cbn [In] in *.
    assert (Hm : In month [1; 2; 3; 4; 5; 6; 7; 8; 9; 10; 11; 12])
      by (cbn [In]; lia).
    cbn [In] in Hm. repeat (destruct Hm as [<- | Hm]); try contradiction;
      destruct (isLeap year); eval_daysBefore;
      match goal with
      | |- context [?a =? ?b] => destruct (Z.eqb_spec a b)
      end; cbn [andb]; lia. }
  assert (Hfmt : Format (UTC t) RFC3339
    = digits4 year ++ "-" ++ digits2 month ++ "-" ++ digits2 day ++ "T"
      ++ digits2 (Hour (UTC t)) ++ ":" ++ digits2 (Minute (UTC t)) ++ ":"
      ++ digits2 (Second (UTC t)) ++ "Z").
  { unfold Format. rewrite Hdate.
    change (zoneOffset (loc (UTC t))) with 0. cbn [Z.eqb].
    rewrite appendInt_4 by lia. rewrite !appendInt_2 by lia. reflexivity. }
  split; [exact Hfmt|]. rewrite Hfmt. unfold readRFC3339UTC.
  rewrite readDigits_digits4 by lia.
  cbn [String.append]. rewrite readChar_cons.
  rewrite readDigits_digits2 by lia.
  cbn [String.append]. rewrite readChar_cons.
  rewrite readDigits_digits2 by lia.
  cbn [String.append]. rewrite readChar_cons.
  rewrite readDigits_digits2 by lia.
  cbn [String.append]. rewrite readChar_cons.
  rewrite readDigits_digits2 by lia.
  cbn [String.append]. rewrite readChar_cons.
  replace (digits2 (Second (UTC t)) ++ "Z")
    with (digits2 (Second (UTC t)) ++ "Z" ++ "") by reflexivity.
  rewrite readDigits_digits2 by lia.
  cbn [String.append]. rewrite readChar_cons.
  cbn [String.eqb andb].
  repeat match goal with
  | |- context [?a <=? ?b] =>
      replace (a <=? b) with true by (symmetry; apply Z.leb_le; lia)
  end.
  reflexivity.
Qed.

(** Formatting in UTC reads the instant only, not the location. *)
Lemma Format_UTC_instant (t t' : Time) :
  sec t = sec t' -> Format (UTC t) RFC3339 = Format (UTC t') RFC3339.
Proof.
  intros Hsec. unfold Format, Date_of, Hour, Minute, Second, abs, UTC.
  cbn [sec loc]. now rewrite Hsec.
Qed.

(** ** From the date back to the day number *)

Lemma absYearDay_inverse (d : Z) :
  daysSinceEpoch (fst (absYearDay d)) + snd (absYearDay d) = d.
Proof.
  unfold absYearDay, daysSinceEpoch, daysPer400Years, daysPer100Years,
    daysPer4Years.
  cbv zeta. cbn [fst snd].
  rewrite !Z.shiftr_div_pow2 by lia. change (2 ^ 2) with 4.
  Z.div_mod_to_equations; lia.
Qed.

(** Settles one month of the way back. *)
Ltac calendar_back H Hleap :=
  eval_daysBefore;
  match type of H with
  | context [?a <=? ?b] => destruct (Z.leb_spec a b)
  end;
  injection H as <- <-;
  eval_daysBefore;
  repeat match goal with
  | |- context [?a <=? ?b] => destruct (Z.leb_spec a b)
  end;
  cbn [andb]; lia.

Lemma absMonthDay_inverse (year yday month day : Z) :
  0 <= yday <= 365 -> (yday = 365 -> isLeap year = true) ->
  absMonthDay year yday = (month, day) ->
  daysBefore (month - 1)
  + (if isLeap year && (3 <=? month) then 1 else 0) + (day - 1) = yday.
Proof.
  intros Hy H365 H. unfold absMonthDay in H.
  destruct (isLeap year) eqn:Hleap; cbn [andb] in *.
  - destruct (Z.eqb_spec yday (31 + 29 - 1)) as [H59|H59].
    { injection H as <- <-. subst yday. reflexivity. }
    destruct (Z.ltb_spec (31 + 29 - 1) yday) as [Hafter|Hafter].
    + destruct (month_estimate (yday - 1) ltac:(lia)) as [Hd Hm].
      set (d := yday - 1) in *.
      assert (Hday : 59 <= d <= 364 /\ yday = d + 1) by (subst d; lia).
      clearbody d. set (m := d / 31) in *. clearbody m.
      cbn [In] in Hm. repeat (destruct Hm as [<- | Hm]); try contradiction;
        calendar_back H Hleap.
    + destruct (month_estimate yday ltac:(lia)) as [Hd Hm].
      set (m := yday / 31) in *. clearbody m.
      cbn [In] in Hm. repeat (destruct Hm as [<- | Hm]); try contradiction;
        calendar_back H Hleap.
  - assert (H364 : yday <= 364)
      by (destruct (Z.eq_dec yday 365); [intuition congruence | lia]).
    destruct (month_estimate yday ltac:(lia)) as [Hd Hm].
    set (m := yday / 31) in *. clearbody m.
    cbn [In] in Hm. repeat (destruct Hm as [<- | Hm]); try contradiction;
      calendar_back H Hleap.
Qed.

(** [Date] undoes [absDate] and the clock: the fields of a time in UTC
    name its second. *)
Lemma Date_of_fields (t : Time) (year month day : Z) :
  Date_of (UTC t) = (year, month, day) ->
  sec (Date year month day (Hour (UTC t)) (Minute (UTC t)) (Second (UTC t))
         0 UTCLoc) = sec t.
Proof.
  unfold Date_of, absDate. intros H.
  pose proof (absYearDay_range (abs (UTC t) / secondsPerDay)) as [Hy H365].
  pose proof (absYearDay_inverse (abs (UTC t) / secondsPerDay)) as Hinv.
  destruct (absYearDay (abs (UTC t) / secondsPerDay)) as [y yday].
  cbn [fst snd] in *.
  destruct (absMonthDay y yday) as [m dd] eqn:Hmd.
  injection H as <- <- <-.
  pose proof (absMonthDay_inverse y yday m dd Hy H365 Hmd) as Hback.
  unfold Date, Hour, Minute, Second. cbn [sec zoneOffset UTCLoc].
  replace (daysSinceEpoch y + daysBefore (m - 1)
           + (if isLeap y && (3 <=? m) then 1 else 0) + (dd - 1))
    with (abs (UTC t) / secondsPerDay) by lia.
  unfold abs, UTC, secondsPerDay. cbn [sec loc zoneOffset UTCLoc].
  Z.div_mod_to_equations; lia.
Qed.

End CalendarFacts.

(** * The webhook renderer *)



(** * The URL check *)

Section URLFacts.

Variable parseAuthority : string -> option error.

Lemma ToLower_empty (s : string) : url.ToLower s = "" -> s = "".
Proof. destruct s; [reflexivity | discriminate]. Qed.

(** [getScheme] finds no scheme only by handing the whole input back. *)
Lemma getScheme_loop_none (rawURL : string) :
  forall rest i scheme rest',
    String.length rawURL = (i + String.length rest)%nat ->
    url.getScheme_loop rawURL rest i = inl (scheme, rest') ->
    scheme = "" -> rest' = rawURL.
Proof.
  induction rest as [|c rest IH]; intros i scheme rest' Hlen H Hs; cbn in H.
  - now injection H as _ <-.
  - repeat match type of H with
    | (if ?c then _ else _) = _ => destruct c eqn:?
    end;
    try (eapply (IH (S i)); [simpl in Hlen; lia | exact H | exact Hs]);
    try discriminate;
    try (now injection H as _ <-).
    injection H as <- <-.
    destruct (sliceTo_prefix rawURL i) as [Hl _]; [simpl in Hlen; lia|].
    rewrite Hs in Hl. simpl in Hl. subst i. discriminate.
Qed.

Lemma Cut_prefix (s : string) (c sep : ascii) :
  Ascii.eqb c sep = false ->
  Strings.HasPrefix (fst (fst (url.Cut s sep))) (String c "") = true ->
  Strings.HasPrefix s (String c "") = true.
Proof.
  intros Hne. unfold Strings.HasPrefix.
  destruct s as [|a s]; cbn [url.Cut]; [auto|].
  destruct (Ascii.eqb a sep) eqn:Ha; cbn [fst]; [discriminate|].
  destruct (url.Cut s sep) as [[before after] found]. cbn [fst].
  cbn [String.prefix]. destruct (ascii_dec c a); [|discriminate].
  intros _. now destruct s.
Qed.

Lemma sliceTo_pred_prefix (s : string) (c : ascii) :
  Strings.HasPrefix (sliceTo s (String.length s - 1)) (String c "") = true ->
  Strings.HasPrefix s (String c "") = true.
Proof.
  unfold Strings.HasPrefix, sliceTo.
  destruct s as [|a s]; [auto|]. cbn [String.length].
  rewrite Nat.sub_succ, Nat.sub_0_r.
  destruct s as [|b s]; [discriminate|]. cbn [String.length substring String.prefix].
  destruct (ascii_dec c a); [|discriminate]. intros _.
  reflexivity.
Qed.

(** The scheme of a parsed URL is the one [getScheme] split off, in lower
    case. *)
Lemma parse_scheme (rawURL : string) (u : url.URL) :
  url.parse parseAuthority rawURL true = inl u ->
  rawURL <> "*" ->
  exists scheme rest,
    url.getScheme rawURL = inl (scheme, rest)
    /\ url.Scheme u = url.ToLower scheme.
Proof.
  intros Hparse Hstar. unfold url.parse in Hparse.
  destruct (url.stringContainsCTLByte rawURL); [discriminate|].
  destruct ((rawURL =? "")%string && true); [discriminate|].
  destruct (String.eqb_spec rawURL "*") as [->|_]; [contradiction|].
  destruct (url.getScheme rawURL) as [[scheme rest]|err]; [|discriminate].
  exists scheme, rest. split; [reflexivity|].
  revert Hparse.
  repeat match goal with
  | |- context [let '(_, _) := ?x in _] => destruct x
  | |- context [if ?c then _ else _] => destruct c
  | |- context [match ?x with Some _ => _ | None => _ end] => destruct x
  end; intros H; try discriminate; now injection H as <-.
Qed.

(** The strings [ParseRequestURI] accepts are absolute URLs, the asterisk
    form, or rooted paths. *)
Lemma ParseRequestURI_accepts (rawURL : string) :
  AcceptedURL parseAuthority rawURL ->
  WellFormedAbsoluteURL parseAuthority rawURL
  \/ rawURL = "*"
  \/ Strings.HasPrefix rawURL "/" = true.
Proof.
  intros [u Hu]. unfold WellFormedAbsoluteURL. rewrite Hu.
  destruct (url.IsAbs u) eqn:Habs; [left; eauto|]. right.
  destruct (String.eqb_spec rawURL "*") as [->|Hstar]; [now left|]. right.
  unfold url.ParseRequestURI in Hu.
  destruct (url.parse parseAuthority rawURL true) as [u'|err] eqn:Hparse;
    [injection Hu as ->|discriminate].
  destruct (parse_scheme rawURL u Hparse Hstar) as (scheme & rest & Hscheme & Hsch).
  assert (Hrest : scheme = "" -> rest = rawURL).
  { intros Hs. unfold url.getScheme in Hscheme.
    eapply getScheme_loop_none; [|exact Hscheme|exact Hs]. reflexivity. }
  unfold url.IsAbs in Habs. apply negb_false_iff, String.eqb_eq in Habs.
  rewrite Hsch in Habs. apply ToLower_empty in Habs.
  specialize (Hrest Habs). subst scheme rest.
  unfold url.parse in Hparse. rewrite Hscheme in Hparse.
  destruct (url.stringContainsCTLByte rawURL); [discriminate|].
  destruct ((rawURL =? "")%string && true); [discriminate|].
  destruct (String.eqb_spec rawURL "*") as [->|_]; [contradiction|].
  cbn [url.ToLower] in Hparse.
  cbn [String.eqb negb orb andb] in Hparse.
  destruct (url.HasSuffix rawURL "?" && (url.Count rawURL "?" =? 1)%nat).
  - destruct (Strings.HasPrefix (sliceTo rawURL (String.length rawURL - 1)) "/")
      eqn:Hp; cbn [negb] in Hparse; [|discriminate].
    now apply sliceTo_pred_prefix.
  - destruct (url.Cut rawURL "?") as [[before after] found] eqn:Hcut.
    destruct (Strings.HasPrefix before "/") eqn:Hp; cbn [negb] in Hparse;
      [|discriminate].
    apply (Cut_prefix rawURL "/" "?"); [reflexivity|]. now rewrite Hcut.
Qed.


(** What the URL check demands of the first byte, and of every byte. *)
Lemma AcceptedURL_bytes (rawURL : string) :
  AcceptedURL parseAuthority rawURL ->
  url.stringContainsCTLByte rawURL = false
  /\ (rawURL = "*"
      \/ exists c rest, rawURL = String c rest
                        /\ (url.isLetter (byteZ c) = true \/ c = "/"%char)).
Proof.
  intros Hacc. split.
  - destruct Hacc as [u Hu]. unfold url.ParseRequestURI, url.parse in Hu.
    destruct (url.stringContainsCTLByte rawURL); [discriminate|reflexivity].
  - destruct (ParseRequestURI_accepts rawURL Hacc) as [(u & Hu & Habs)|[->|Hp]];
      [|now left|].
    + right. unfold url.ParseRequestURI in Hu.
      destruct (url.parse parseAuthority rawURL true) as [u'|] eqn:Hparse;
        [injection Hu as ->|discriminate].
      unfold url.IsAbs in Habs.
      destruct (String.eqb_spec rawURL "*") as [->|Hstar];
        [vm_compute in Hparse; injection Hparse as <-; discriminate|].
      destruct (parse_scheme rawURL u Hparse Hstar)
        as (scheme & rest & Hscheme & Hsch).
      destruct rawURL as [|c r];
        [cbn in Hscheme; injection Hscheme as <- _; rewrite Hsch in Habs;
         discriminate|].
      exists c, r. split; [reflexivity|]. left.
      destruct (url.isLetter (byteZ c)) eqn:Hl; [reflexivity|exfalso].
      unfold url.getScheme in Hscheme. cbn [url.getScheme_loop] in Hscheme.
      rewrite Hl in Hscheme. cbn [Nat.eqb] in Hscheme.
      assert (Hs : scheme = "").
      { repeat match type of Hscheme with
        | (if ?b then _ else _) = _ => destruct b
        end; try discriminate; now injection Hscheme as <- _. }
      subst scheme. rewrite Hsch in Habs. discriminate.
    + right. destruct rawURL as [|c r]; [discriminate|].
      unfold Strings.HasPrefix in Hp. cbn [String.prefix] in Hp.
      destruct (ascii_dec "/" c) as [<-|]; [|discriminate].
      exists "/"%char, r. auto.
Qed.

End URLFacts.

(** * The dispatcher *)

Section DispatcherFacts.

Variable parseAuthority : string -> option error.
Variable Quote : string -> string.
Variable Context : Type.
Variable Marshal : any -> string + error.
Variable NewRequestWithContext :
  Context -> string -> string -> string -> http.Request + error.

Ltac unfold_sendJSON := unfold sendJSON.
Ltac unfold_Send := unfold SendSlack, SendWebhook.
Ltac unfold_Errorf_w := unfold Errorf_w.
Ltac unfold_Errorf_w_in H := unfold Errorf_w in H.
Ltac unfold_outcomes := unfold RejectsURL, URLError, AcceptedURL.
Ltac unfold_Delivered := unfold Delivered.
Ltac unfold_IsSend_in H := unfold IsSend, SendSlack, SendWebhook in H.

Local Abbreviation sendJSON :=
  (sendJSON parseAuthority Quote Context Marshal NewRequestWithContext).
Local Abbreviation SendSlack :=
  (SendSlack parseAuthority Quote Context Marshal NewRequestWithContext).
Local Abbreviation SendWebhook :=
  (SendWebhook parseAuthority Quote Context Marshal NewRequestWithContext).
Local Abbreviation Errorf_w := (Errorf_w Quote).
Local Abbreviation Error := (Error Quote).
Local Abbreviation URLError := (URLError Quote).
Local Abbreviation RejectsURL := (RejectsURL Quote).
Local Abbreviation Delivered :=
  (Delivered parseAuthority Context Marshal NewRequestWithContext).
Local Abbreviation IsSend :=
  (IsSend parseAuthority Quote Context Marshal NewRequestWithContext).

Lemma sendJSON_rejects_iff (s : Sender) (ctx : Context) (webhookURL : string)
    (payload : any) :
  Strings.TrimSpace webhookURL = "" \/ ~ AcceptedURL parseAuthority webhookURL
  <-> RejectsURL (sendJSON s ctx webhookURL payload).
Proof.
  unfold_outcomes. unfold_sendJSON.
  destruct (String.eqb_spec (Strings.TrimSpace webhookURL) "") as [Hb|Hb].
  { split; [|now left]. intros _. cbn. eauto. }
  destruct (url.ParseRequestURI parseAuthority webhookURL) as [u|perr].
  2:{ split.
      - intros _. cbn. eauto 6.
      - intros _. right. intros [u Hu]. discriminate. }
  split; [intros [H|H]; [contradiction | exfalso; eauto]|].
  intros [Hnil (err & Herr & Hurl)]. exfalso.
  destruct (Marshal payload) as [body|merr].
  2:{ cbn in Herr. injection Herr as <-.
      destruct Hurl as [H|[inner H]]; [discriminate|].
      unfold_Errorf_w_in H. injection H as H _.
      cbn [String.append] in H. discriminate. }
  destruct (NewRequestWithContext ctx http.MethodPost webhookURL body)
    as [req|rerr].
  2:{ cbn in Herr. injection Herr as <-.
      destruct Hurl as [H|[inner H]]; [discriminate|].
      unfold_Errorf_w_in H. injection H as H _.
      cbn [String.append] in H. discriminate. }
  cbv zeta in Hnil.
  destruct (http.Do _ _) as [resp|derr]; [|discriminate].
  destruct ((http.StatusCode resp <? 200) || (300 <=? http.StatusCode resp));
    discriminate.
Qed.

Lemma sendJSON_delivered (s : Sender) (ctx : Context) (webhookURL : string)
    (payload : any) (resp : http.Response) :
  Delivered s ctx webhookURL payload resp ->
  snd (sendJSON s ctx webhookURL payload)
  = if (http.StatusCode resp <? 200) || (300 <=? http.StatusCode resp)
    then Some (errors.New ("webhook returned status "
                           ++ Itoa (http.StatusCode resp)))
    else None.
Proof.
  intros (Hb & [u Hu] & body & req & Hm & Hr & Hd).
  unfold_sendJSON.
  apply eqb_empty_false in Hb. rewrite Hb, Hu, Hm, Hr. cbv zeta. rewrite Hd.
  now destruct ((http.StatusCode resp <? 200) || (300 <=? http.StatusCode resp)).
Qed.

(** Every request that reaches the client is a JSON request. *)
Lemma sendJSON_content_type (s : Sender) (ctx : Context) (webhookURL : string)
    (payload : any) (req : http.Request) :
  In (Sent req) (fst (sendJSON s ctx webhookURL payload)) ->
  http.Header req !! "Content-Type" = Some ["application/json"].
Proof.
  unfold_sendJSON.
  destruct (Strings.TrimSpace webhookURL =? "")%string; [intros []|].
  destruct (url.ParseRequestURI parseAuthority webhookURL); [|intros []].
  destruct (Marshal payload) as [body|]; [|intros []].
  destruct (NewRequestWithContext ctx http.MethodPost webhookURL body)
    as [req0|]; [|intros []].
  cbv zeta.
  assert (Hset : http.Header
                   (http.Header_Set req0 "Content-Type" "application/json")
                 !! "Content-Type" = Some ["application/json"])
    by apply lookup_insert_eq.
  destruct (http.Do _ _) as [resp|].
  - destruct ((http.StatusCode resp <? 200) || (300 <=? http.StatusCode resp));
      cbn [fst In]; intros [H|[H|[]]]; try discriminate;
      injection H as <-; exact Hset.
  - cbn [fst In]. intros [H|[]]. injection H as <-. exact Hset.
Qed.

(** C8. An event that fails validation makes both sends return the
    validation error wrapped behind [invalid event: ], with no network
    attempt. *)
Theorem Send_invalid_event (s : Sender) (ctx : Context) (webhookURL : string)
    (e : Event) :
  Validate e <> None ->
  exists err,
    Validate e = Some err
    /\ SendSlack s ctx webhookURL e = ([], Some (Errorf_w "invalid event: " err))
    /\ SendWebhook s ctx webhookURL e = ([], Some (Errorf_w "invalid event: " err))
    /\ Unwrap (Errorf_w "invalid event: " err) = Some err
    /\ Error (Errorf_w "invalid event: " err) = "invalid event: " ++ Error err.
Proof.
  intros Hinv. unfold_Send.
  destruct (Validate e) as [err|]; [|contradiction].
  exists err. repeat split.
Qed.



(** ** The paths through [sendJSON] *)

(** The six ways [sendJSON] can end. *)
Lemma sendJSON_cases (s : Sender) (ctx : Context) (webhookURL : string)
    (payload : any) :
  (Strings.TrimSpace webhookURL = ""
   /\ sendJSON s ctx webhookURL payload
      = ([], Some (errors.New "webhook URL is required")))
  \/ (exists cause,
        url.ParseRequestURI parseAuthority webhookURL = inr cause
        /\ sendJSON s ctx webhookURL payload
           = ([], Some (Errorf_w "invalid webhook URL: " cause)))
  \/ (exists cause,
        Marshal payload = inr cause
        /\ sendJSON s ctx webhookURL payload
           = ([], Some (Errorf_w "marshal payload: " cause)))
  \/ (exists body cause,
        Marshal payload = inl body
        /\ NewRequestWithContext ctx http.MethodPost webhookURL body = inr cause
        /\ sendJSON s ctx webhookURL payload
           = ([], Some (Errorf_w "build request: " cause)))
  \/ (exists body req cause,
        Marshal payload = inl body
        /\ NewRequestWithContext ctx http.MethodPost webhookURL body = inl req
        /\ http.Do (Client s) (jsonRequest req) = inr cause
        /\ sendJSON s ctx webhookURL payload
           = ([Sent (jsonRequest req)], Some (Errorf_w "send webhook: " cause)))
  \/ (exists body req resp,
        Marshal payload = inl body
        /\ NewRequestWithContext ctx http.MethodPost webhookURL body = inl req
        /\ http.Do (Client s) (jsonRequest req) = inl resp
        /\ Delivered s ctx webhookURL payload resp
        /\ sendJSON s ctx webhookURL payload
           = ([Sent (jsonRequest req); BodyClosed],
              if (http.StatusCode resp <? 200) || (300 <=? http.StatusCode resp)
              then Some (errors.New ("webhook returned status "
                                     ++ Itoa (http.StatusCode resp)))
              else None)).
Proof.
  unfold_sendJSON. unfold_Delivered.
  destruct (String.eqb_spec (Strings.TrimSpace webhookURL) "") as [Hb|Hb];
    [left; auto|right].
  destruct (url.ParseRequestURI parseAuthority webhookURL) as [u|cause] eqn:Hu;
    [right|left; eauto].
  destruct (Marshal payload) as [body|cause] eqn:Hm; [right|left; eauto].
  destruct (NewRequestWithContext ctx http.MethodPost webhookURL body)
    as [req|cause] eqn:Hr; [right|left; eauto].
  cbv zeta. fold (jsonRequest req).
  destruct (http.Do (Client s) (jsonRequest req)) as [resp|cause] eqn:Hd;
    [right|left; eauto 7].
  exists body, req, resp. repeat split; auto.
  - now exists u.
  - exists body, req. auto.
  - now destruct ((http.StatusCode resp <? 200) || (300 <=? http.StatusCode resp)).
Qed.

(** ** Both sends at once *)

Lemma Send_cases (s : Sender) (ctx : Context) (webhookURL : string)
    (e : Event) (payload : any) (res : list NetEvent * option error) :
  IsSend s ctx webhookURL e payload res ->
  (exists cause, Validate e = Some cause
                 /\ res = ([], Some (Errorf_w "invalid event: " cause)))
  \/ (Validate e = None /\ res = sendJSON s ctx webhookURL payload).
Proof.
  intros H. unfold_IsSend_in H.
  destruct (Validate e) as [cause|]; [left | right];
    destruct H as [[-> ->]|[-> ->]]; eauto.
Qed.


(** A send returns [nil] exactly when the event is valid, the request was
    answered, and the status code of the answer lies in [200, 299]. *)
Theorem Send_success_iff (s : Sender) (ctx : Context) (webhookURL : string)
    (e : Event) (payload : any) (res : list NetEvent * option error) :
  IsSend s ctx webhookURL e payload res ->
  (snd res = None
   <-> Validate e = None
       /\ exists resp, Delivered s ctx webhookURL payload resp
                       /\ 200 <= http.StatusCode resp <= 299).
Proof.
  intros H. split.
  - intros Hnil.
    destruct (Send_cases _ _ _ _ _ _ H) as [(c & _ & ->)|[Hv ->]];
      [discriminate|].
    split; [exact Hv|].
    destruct (sendJSON_cases s ctx webhookURL payload)
      as [[_ Hr]|[(c & _ & Hr)|[(c & _ & Hr)|[(b & c & _ & _ & Hr)
         |[(b & r & c & _ & _ & _ & Hr)|(b & r & resp & _ & _ & _ & Hd & Hr)]]]]];
      rewrite Hr in Hnil; try discriminate.
    exists resp. split; [exact Hd|]. cbn [snd] in Hnil.
    destruct (Z.ltb_spec (http.StatusCode resp) 200); [discriminate|].
    destruct (Z.leb_spec 300 (http.StatusCode resp)); [discriminate|]. lia.
  - intros [Hv (resp & Hd & Hcode)].
    destruct (Send_cases _ _ _ _ _ _ H) as [(c & Hc & _)|[_ ->]];
      [congruence|].
    rewrite (sendJSON_delivered _ _ _ _ _ Hd).
    destruct (Z.ltb_spec (http.StatusCode resp) 200); [lia|].
    destruct (Z.leb_spec 300 (http.StatusCode resp)); [lia|]. reflexivity.
Qed.

(** What reaches the client: the event was valid, and the request is the
    one [NewRequestWithContext] built for a POST to the destination with
    the marshalled payload of that send as its body, with the header
    [Content-Type] set to [application/json] and nothing else changed. *)
Theorem Send_request_shape (s : Sender) (ctx : Context) (webhookURL : string)
    (e : Event) (payload : any) (res : list NetEvent * option error)
    (req : http.Request) :
  IsSend s ctx webhookURL e payload res ->
  In (Sent req) (fst res) ->
  Validate e = None
  /\ exists body built,
       Marshal payload = inl body
       /\ NewRequestWithContext ctx http.MethodPost webhookURL body = inl built
       /\ http.Header req = <["Content-Type" := ["application/json"]]> (http.Header built)
       /\ http.Header req !! "Content-Type" = Some ["application/json"]
       /\ http.Method req = http.Method built
       /\ http.URL req = http.URL built
       /\ http.Body req = http.Body built.
Proof.
  intros H Hin.
  destruct (Send_cases _ _ _ _ _ _ H) as [(c & _ & ->)|[Hv ->]];
    [destruct Hin|].
  split; [exact Hv|].
  destruct (sendJSON_cases s ctx webhookURL payload)
    as [[_ Hr]|[(c & _ & Hr)|[(c & _ & Hr)|[(b & c & _ & _ & Hr)
       |[(b & r & c & Hm & Hb & _ & Hr)|(b & r & resp & Hm & Hb & _ & _ & Hr)]]]]];
    rewrite Hr in Hin; cbn [fst In] in Hin; try contradiction.
  - destruct Hin as [Heq|[]]. injection Heq as <-.
    exists b, r. repeat split; auto. apply lookup_insert_eq.
  - destruct Hin as [Heq|[Heq|[]]]; [|discriminate]. injection Heq as <-.
    exists b, r. repeat split; auto. apply lookup_insert_eq.
Qed.

(** Before any payload is rendered the two sends are one: on an invalid
    event, a blank destination or a destination the URL check refuses,
    [SendSlack] and [SendWebhook] return the same result. *)
Theorem Send_same_early_failure (s : Sender) (ctx : Context)
    (webhookURL : string) (e : Event) :
  Validate e <> None
  \/ Strings.TrimSpace webhookURL = ""
  \/ ~ AcceptedURL parseAuthority webhookURL ->
  SendSlack s ctx webhookURL e = SendWebhook s ctx webhookURL e.
Proof.
  intros H. unfold_Send. destruct (Validate e) as [c|]; [reflexivity|].
  destruct H as [H|H]; [congruence|]. unfold_sendJSON.
  destruct (String.eqb_spec (Strings.TrimSpace webhookURL) "") as [Hb|Hb];
    [reflexivity|].
  destruct H as [H|H]; [contradiction|].
  destruct (url.ParseRequestURI parseAuthority webhookURL) as [u|c] eqn:Hu;
    [|reflexivity].
  exfalso. apply H. now exists u.
Qed.

(** Every error of a send keeps its cause: it is one of the two plain
    errors (no destination; a status code outside [200, 299]) or it wraps
    the error of the stage that failed, so that [Unwrap] returns that error
    and the message is the stage's prefix followed by the cause's
    message. *)
Theorem Send_errors_wrap_cause (s : Sender) (ctx : Context)
    (webhookURL : string) (e : Event) (payload : any)
    (res : list NetEvent * option error) (err : error) :
  IsSend s ctx webhookURL e payload res ->
  snd res = Some err ->
  err = errors.New "webhook URL is required"
  \/ (exists resp, Delivered s ctx webhookURL payload resp
                   /\ ~ 200 <= http.StatusCode resp <= 299
                   /\ err = errors.New ("webhook returned status "
                                        ++ Itoa (http.StatusCode resp)))
  \/ (exists prefix cause,
        In prefix wrapPrefixes
        /\ Unwrap err = Some cause
        /\ Error err = prefix ++ Error cause
        /\ (prefix = "invalid event: " -> Validate e = Some cause)
        /\ (prefix = "invalid webhook URL: " ->
              url.ParseRequestURI parseAuthority webhookURL = inr cause)
        /\ (prefix = "marshal payload: " -> Marshal payload = inr cause)).
Proof.
  intros H Herr.
  destruct (Send_cases _ _ _ _ _ _ H) as [(c & Hc & ->)|[Hv ->]].
  { injection Herr as <-. right; right. exists "invalid event: ", c.
    cbn [wrapPrefixes In]. repeat split; auto; try (intros; discriminate); try tauto. }
  destruct (sendJSON_cases s ctx webhookURL payload)
    as [[_ Hr]|[(c & Hc & Hr)|[(c & Hc & Hr)|[(b & c & _ & Hc & Hr)
       |[(b & r & c & _ & _ & Hc & Hr)|(b & r & resp & _ & _ & _ & Hd & Hr)]]]]];
    rewrite Hr in Herr; cbn [snd] in Herr.
  - injection Herr as <-. now left.
  - injection Herr as <-. right; right. exists "invalid webhook URL: ", c.
    cbn [wrapPrefixes In]. repeat split; auto; try (intros; discriminate); try tauto.
  - injection Herr as <-. right; right. exists "marshal payload: ", c.
    cbn [wrapPrefixes In]. repeat split; auto; try (intros; discriminate); try tauto.
  - injection Herr as <-. right; right. exists "build request: ", c.
    cbn [wrapPrefixes In]. repeat split; auto; try (intros; discriminate); try tauto.
  - injection Herr as <-. right; right. exists "send webhook: ", c.
    cbn [wrapPrefixes In]. repeat split; auto; try (intros; discriminate); try tauto.
  - right; left. exists resp. split; [exact Hd|].
    destruct (Z.ltb_spec (http.StatusCode resp) 200);
      [injection Herr as <-; split; [lia|reflexivity]|].
    destruct (Z.leb_spec 300 (http.StatusCode resp));
      [injection Herr as <-; split; [lia|reflexivity]|discriminate].
Qed.

(** A destination with an ASCII control byte in it (a line feed left at
    the end, say), or one that begins with neither a letter nor a slash and
    is not the asterisk form, never reaches the network: both sends fail on
    the URL. *)
Theorem Send_url_bad_bytes (s : Sender) (ctx : Context) (webhookURL : string)
    (e : Event) :
  Validate e = None ->
  url.stringContainsCTLByte webhookURL = true
  \/ (webhookURL <> "*"
      /\ exists c rest, webhookURL = String c rest
                        /\ url.isLetter (byteZ c) = false /\ c <> "/"%char) ->
  RejectsURL (SendSlack s ctx webhookURL e)
  /\ RejectsURL (SendWebhook s ctx webhookURL e).
Proof.
  intros Hv Hbad.
  assert (Hrej : ~ AcceptedURL parseAuthority webhookURL).
  { intros Hacc.
    destruct (AcceptedURL_bytes parseAuthority webhookURL Hacc)
      as [Hctl [Hstar|(c & r & Heq & Hc)]];
      destruct Hbad as [Hb|[Hns (c' & r' & Heq' & Hl & Hslash)]];
      try congruence.
    rewrite Heq in Heq'. injection Heq' as <- <-.
    destruct Hc; congruence. }
  unfold_Send. rewrite Hv.
  split; apply sendJSON_rejects_iff; now right.
Qed.

(** The body of a response is always closed: once the client has
    answered a request, whatever the status code, the send ends with the
    closing of the body; and a send that returns [nil] made exactly one
    request and closed the body of its answer. *)
Theorem Send_closes_body (s : Sender) (ctx : Context) (webhookURL : string)
    (e : Event) (payload : any) (res : list NetEvent * option error) :
  IsSend s ctx webhookURL e payload res ->
  (forall req resp,
      In (Sent req) (fst res) -> http.Do (Client s) req = inl resp ->
      fst res = [Sent req; BodyClosed])
  /\ (snd res = None -> exists req, fst res = [Sent req; BodyClosed])
  /\ (In BodyClosed (fst res) ->
        exists req resp, fst res = [Sent req; BodyClosed]
                         /\ http.Do (Client s) req = inl resp).
Proof.
  intros H.
  destruct (Send_cases _ _ _ _ _ _ H) as [(c & _ & ->)|[_ ->]].
  { split; [|split]; [intros ? ? []|discriminate|intros []]. }
  destruct (sendJSON_cases s ctx webhookURL payload)
    as [[_ ->]|[(c & _ & ->)|[(c & _ & ->)|[(b & c & _ & _ & ->)
       |[(b & r & c & _ & _ & Hd & ->)|(b & r & resp & _ & _ & Hd & _ & ->)]]]]];
    cbn [fst snd In];
    try solve [split; [|split]; [intros ? ? []|discriminate|intros []]].
  - split; [|split].
    + intros req resp [Heq|[]] Hdo. injection Heq as <-. congruence.
    + discriminate.
    + intros [Heq|[]]. discriminate.
  - split; [|split].
    + intros req resp' [Heq|[Heq|[]]] _; [|discriminate].
      now injection Heq as <-.
    + intros _. now exists (jsonRequest r).
    + intros _. now exists (jsonRequest r), resp.
Qed.

End DispatcherFacts.

(** * The detail block *)

(** C6. On the event of the tests the detail block is one line: between
    the fields stand the bytes 0xC2 0xA5 (U+00A5) and the letter [n], and
    no line feed occurs in the text. *)
Theorem detail_block_single_line :
  exists summary detail,
    Blocks (BuildSlackPayload testEvent) = [summary; detail]
    /\ blockText detail = testDetail
    /\ hasLineFeed (blockText detail) = false.
Proof.
  eexists _, _. split; [reflexivity|]. split; vm_compute; reflexivity.
Qed.

(** The part of the detail block that holds for every event: the seven
    fields are in it, in order, each behind its label. *)
Lemma detail_block_fields (e : Event) :
  exists summary detail,
    Blocks (BuildSlackPayload e) = [summary; detail]
    /\ exists sep,
         blockText detail =
           "*Repo:* `" ++ Repository e ++ "`" ++ sep
           ++ "*Branch:* `" ++ Branch e ++ "`" ++ sep
           ++ "*Commit:* `" ++ CommitSHA e ++ "`" ++ sep
           ++ "*Rule:* `" ++ Rule e ++ "`" ++ sep
           ++ "*File:* `" ++ FilePath e ++ "`" ++ sep
           ++ "*Author:* `" ++ Author e ++ "`" ++ sep
           ++ "*Detected:* `" ++ Format (UTC (DetectedAt e)) RFC3339 ++ "`".
Proof.
  eexists _, _. split; [reflexivity|]. exists (yen ++ "n").
  unfold blockText. cbn [BuildSlackPayload Blocks sb_Text st_Text].
  rewrite !append_assoc. reflexivity.
Qed.

(** * The two renderers together *)

Section RendererFacts.

Lemma Contains_head (x rest : string) : Contains (x ++ rest) x.
Proof. exists "", rest. reflexivity. Qed.

Lemma Contains_app_r (s t x : string) : Contains t x -> Contains (s ++ t) x.
Proof.
  intros (pre & post & ->). exists (s ++ pre), post.
  now rewrite append_assoc.
Qed.

Lemma hasLineFeed_app (a b : string) :
  hasLineFeed (a ++ b) = hasLineFeed a || hasLineFeed b.
Proof.
  unfold hasLineFeed. induction a as [|c a IH]; [reflexivity|].
  cbn [String.append list_ascii_of_string existsb]. rewrite IH.
  now rewrite orb_assoc.
Qed.

Lemma hasLineFeed_zeros (n : nat) : hasLineFeed (zeros n) = false.
Proof. induction n as [|n IH]; [reflexivity|]. exact IH. Qed.

Lemma digitChar_not_line_feed (d : Z) :
  0 <= d < 10 -> (byteZ (digitChar d) =? 10) = false.
Proof.
  intros Hd. apply negb_true_iff.
  apply (below_enumerated 10 (fun d => negb (byteZ (digitChar d) =? 10)));
    [vm_compute; reflexivity | assumption].
Qed.

Lemma hasLineFeed_utoa_loop (fuel : nat) :
  forall u acc, 0 <= u ->
    hasLineFeed (utoa_loop fuel u acc) = hasLineFeed acc.
Proof.
  induction fuel as [|fuel IH]; intros u acc Hu; [reflexivity|].
  cbn [utoa_loop].
  assert (Hacc : hasLineFeed (String (digitChar (u mod 10)) acc)
                 = hasLineFeed acc).
  { unfold hasLineFeed. cbn [list_ascii_of_string existsb].
    rewrite digitChar_not_line_feed by (Z.div_mod_to_equations; lia).
    reflexivity. }
  destruct (u <? 10); [exact Hacc|].
  rewrite IH by (Z.div_mod_to_equations; lia). exact Hacc.
Qed.

Lemma hasLineFeed_appendInt (x : Z) (width : nat) :
  hasLineFeed (appendInt x width) = false.
Proof.
  unfold appendInt. rewrite !hasLineFeed_app, hasLineFeed_zeros.
  unfold utoa. rewrite hasLineFeed_utoa_loop by lia.
  now destruct (x <? 0).
Qed.

(** No time formats to a text with a line feed in it. *)
Lemma hasLineFeed_Format_UTC (t : Time) :
  hasLineFeed (Format (UTC t) RFC3339) = false.
Proof.
  unfold Format. destruct (Date_of (UTC t)) as [[year month] day].
  change (zoneOffset (loc (UTC t))) with 0. cbn [Z.eqb].
  rewrite !hasLineFeed_app, !hasLineFeed_appendInt. reflexivity.
Qed.

Lemma TrimSpace_nonempty (s : string) : Strings.TrimSpace s <> "" -> s <> "".
Proof. intros H ->. now apply H. Qed.

Lemma append_nonempty_r (a b : string) : b <> "" -> a ++ b <> "".
Proof.
  intros Hb H. destruct a; [now apply Hb | discriminate].
Qed.

End RendererFacts.

(** Finds a part of a text built by a chain of appends. *)
Ltac find_part :=
  repeat first [ apply Contains_head | apply Contains_app_r ].

(** The chat message and the webhook record of one event say the same:
    every field of the webhook payload, the timestamp text included, stands
    in the detail block, and the summary carries the repository, the branch
    and the commit reference. *)
Theorem renderers_agree (e : Event) :
  exists summary detail,
    Blocks (BuildSlackPayload e) = [summary; detail]
    /\ Forall (Contains (blockText detail))
         [ wp_Repository (BuildWebhookPayload e);
           wp_Branch (BuildWebhookPayload e);
           wp_CommitSHA (BuildWebhookPayload e);
           wp_Rule (BuildWebhookPayload e);
           wp_FilePath (BuildWebhookPayload e);
           wp_Author (BuildWebhookPayload e);
           wp_DetectedAt (BuildWebhookPayload e) ]
    /\ Forall (Contains (blockText summary))
         [ Repository e; Branch e; shortSHA e ].
Proof.
  eexists _, _. split; [reflexivity|].
  unfold blockText.
  cbn [BuildWebhookPayload BuildSlackPayload Blocks sb_Text st_Text
       wp_Repository wp_Branch wp_CommitSHA wp_Rule wp_FilePath wp_Author
       wp_DetectedAt].
  split; repeat constructor; find_part.
Qed.

(** The timestamp text names the detection instant to the second: for a
    year from 0000 to 9999, the fields read off the webhook timestamp, given
    to [time.Date] in UTC, are a time with the seconds of [DetectedAt]
    (the nanoseconds are not rendered). *)
Theorem timestamp_round_trip (e : Event) (year month day : Z) :
  Date_of (UTC (DetectedAt e)) = (year, month, day) ->
  0 <= year <= 9999 ->
  exists hour minute second,
    readRFC3339UTC (wp_DetectedAt (BuildWebhookPayload e))
    = Some (year, month, day, hour, minute, second)
    /\ sec (Date year month day hour minute second 0 UTCLoc)
       = sec (DetectedAt e).
Proof.
  intros Hdate Hyear.
  exists (Hour (UTC (DetectedAt e))), (Minute (UTC (DetectedAt e))),
         (Second (UTC (DetectedAt e))).
  split.
  - cbn [BuildWebhookPayload wp_DetectedAt].
    now apply Format_UTC_reads_back.
  - now apply Date_of_fields.
Qed.

(** The detail block has a line feed in it exactly when one of the six
    string fields of the event has one: the rendering itself adds none. *)
Theorem detail_line_feed (e : Event) :
  exists summary detail,
    Blocks (BuildSlackPayload e) = [summary; detail]
    /\ hasLineFeed (blockText detail) = existsb hasLineFeed (fields e).
Proof.
  eexists _, _. split; [reflexivity|].
  unfold blockText, fields.
  cbn [BuildSlackPayload Blocks sb_Text st_Text existsb].
  rewrite !hasLineFeed_app, hasLineFeed_Format_UTC.
  change (hasLineFeed yen) with false.
  repeat match goal with
  | |- context [hasLineFeed (String ?c ?r)] =>
      let v := eval vm_compute in (hasLineFeed (String c r)) in
      change (hasLineFeed (String c r)) with v
  end.
  cbn [orb]. rewrite !orb_false_r. now rewrite !orb_assoc.
Qed.

(** A valid event leaves no field of its renderings empty: the seven
    fields of the webhook payload behind the discriminator are non-empty,
    and so is the commit reference of the summary. *)
Theorem valid_event_renders_nonempty (e : Event) :
  Validate e = None ->
  Forall (fun f => f <> "")
    [ wp_Repository (BuildWebhookPayload e);
      wp_Branch (BuildWebhookPayload e);
      wp_CommitSHA (BuildWebhookPayload e);
      wp_Rule (BuildWebhookPayload e);
      wp_FilePath (BuildWebhookPayload e);
      wp_Author (BuildWebhookPayload e);
      wp_DetectedAt (BuildWebhookPayload e) ]
  /\ shortSHA e <> "".
Proof.
  intros Hv.
  pose proof (Validate_ok_fields e Hv) as Hf. unfold fields in Hf.
  repeat match goal with
  | H : Forall _ (_ :: _) |- _ => inversion_clear H
  end.
  split.
  - cbn [BuildWebhookPayload wp_Repository wp_Branch wp_CommitSHA wp_Rule
         wp_FilePath wp_Author wp_DetectedAt].
    repeat constructor; auto.
    unfold Format. destruct (Date_of _) as [[y m] d].
    apply append_nonempty_r. discriminate.
  - unfold shortSHA.
    destruct (Nat.ltb_spec 7 (String.length (CommitSHA e))) as [Hl|Hl];
      [|assumption].
    destruct (sliceTo_prefix (CommitSHA e) 7 ltac:(lia)) as [Hlen _].
    intros Heq. rewrite Heq in Hlen. discriminate.
Qed.

(** Only the instant of [DetectedAt] counts, not the location it
    carries: two events with the same six fields and the same instant
    validate alike and render to the same chat and webhook payloads. *)
Theorem location_irrelevant (e e' : Event) :
  fields e = fields e' ->
  sec (DetectedAt e) = sec (DetectedAt e') ->
  nsec (DetectedAt e) = nsec (DetectedAt e') ->
  Validate e = Validate e'
  /\ BuildSlackPayload e = BuildSlackPayload e'
  /\ BuildWebhookPayload e = BuildWebhookPayload e'.
Proof.
  intros Hf Hsec Hnsec. unfold fields in Hf.
  injection Hf as H1 H2 H3 H4 H5 H6.
  pose proof (Format_UTC_instant _ _ Hsec) as Hfmt.
  unfold Validate, BuildSlackPayload, BuildWebhookPayload, shortSHA, IsZero.
  now rewrite H1, H2, H3, H4, H5, H6, Hsec, Hnsec, Hfmt.
Qed.

(** * The theorems on concrete inputs *)

Lemma whiteSpace_OnlySpace : OnlySpace whiteSpace.
Proof.
  apply (OnlySpace_rune _ 32 1); [reflexivity | lia | reflexivity |].
  apply (OnlySpace_rune _ 160 2); [reflexivity | lia | reflexivity |].
  apply (OnlySpace_rune _ 9 1); [reflexivity | lia | reflexivity |].
  apply OnlySpace_empty.
Defined.

Lemma Validate_ok_iff_witness :
  Validate testEvent = None
  /\ In whiteSpace (fields blankRule)
  /\ OnlySpace whiteSpace
  /\ Strings.TrimSpace whiteSpace = ""
  /\ Validate blankRule <> None.
Proof.
  split.
  - apply (proj1 (Validate_ok_iff testEvent)).
    repeat split; vm_compute; discriminate.
  - split; [cbn; tauto|]. split; [exact whiteSpace_OnlySpace|].
    apply (proj2 (Validate_ok_iff blankRule) whiteSpace).
    + cbn. tauto.
    + exact whiteSpace_OnlySpace.
Defined.

Lemma Validate_first_violation_witness :
  Validate blankRule = Some (errors.New "branch is required")
  /\ exists pre c post,
       constraints = (pre ++ c :: post)%list
       /\ fst c blankRule = false
       /\ Forall (fun c' => fst c' blankRule = true) pre
       /\ errors.New "branch is required" = errors.New (snd c).
Proof.
  split; [vm_compute; reflexivity|].
  apply (proj2 (proj2 (Validate_first_violation blankRule))).
  vm_compute; reflexivity.
Defined.

Lemma summary_shortens_commit_witness :
  (7 < String.length (CommitSHA testEvent))%nat
  /\ exists shown,
       sp_Text (BuildSlackPayload testEvent) = summaryLine testEvent shown
       /\ String.length shown = 7%nat.
Proof.
  split; [cbn; lia|].
  destruct (summary_shortens_commit testEvent) as (shown & Htext & Hlong & _).
  exists shown. split; [exact Htext|]. apply Hlong. cbn; lia.
Defined.



Lemma Send_invalid_event_witness :
  Validate noRepository <> None
  /\ exists err,
       Validate noRepository = Some err
       /\ testSendSlack (serverReplying 200) tt "http://127.0.0.1:8080" noRepository
          = ([], Some (Errorf_w plainQuote "invalid event: " err))
       /\ testSendWebhook (serverReplying 200) tt "http://127.0.0.1:8080" noRepository
          = ([], Some (Errorf_w plainQuote "invalid event: " err)).
Proof.
  split; [vm_compute; discriminate|].
  destruct (Send_invalid_event anyAuthority plainQuote unit plainMarshal
              plainRequest (serverReplying 200) tt "http://127.0.0.1:8080"
              noRepository ltac:(vm_compute; discriminate))
    as (err & Hv & Hs & Hw & _).
  exists err. auto.
Defined.





Lemma Send_success_iff_witness :
  IsSend anyAuthority plainQuote unit plainMarshal plainRequest
    (serverReplying 200) tt testURL testEvent
    (ofSlackPayload (BuildSlackPayload testEvent))
    (testSendSlack (serverReplying 200) tt testURL testEvent)
  /\ Validate testEvent = None
  /\ Delivered anyAuthority unit plainMarshal plainRequest
       (serverReplying 200) tt testURL
       (ofSlackPayload (BuildSlackPayload testEvent))
       {| http.StatusCode := 200 |}
  /\ snd (testSendSlack (serverReplying 200) tt testURL testEvent) = None.
Proof.
  assert (H : IsSend anyAuthority plainQuote unit plainMarshal plainRequest
    (serverReplying 200) tt testURL testEvent
    (ofSlackPayload (BuildSlackPayload testEvent))
    (testSendSlack (serverReplying 200) tt testURL testEvent))
    by (left; split; reflexivity).
  assert (Hd : Delivered anyAuthority unit plainMarshal plainRequest
       (serverReplying 200) tt testURL
       (ofSlackPayload (BuildSlackPayload testEvent))
       {| http.StatusCode := 200 |}).
  { split; [vm_compute; discriminate|].
    split; [eexists; vm_compute; reflexivity|].
    eexists _, _. repeat split; reflexivity. }
  split; [exact H|]. split; [vm_compute; reflexivity|]. split; [exact Hd|].
  apply (proj2 (Send_success_iff _ _ _ _ _ _ _ _ _ _ _ H)).
  split; [vm_compute; reflexivity|].
  exists {| http.StatusCode := 200 |}. split; [exact Hd|].
  cbn [http.StatusCode]. lia.
Defined.

Lemma Send_request_shape_witness :
  IsSend anyAuthority plainQuote unit plainMarshal plainRequest
    (serverReplying 200) tt testURL testEvent
    (ofWebhookPayload (BuildWebhookPayload testEvent))
    (testSendWebhook (serverReplying 200) tt testURL testEvent)
  /\ In (Sent testRequest)
        (fst (testSendWebhook (serverReplying 200) tt testURL testEvent))
  /\ http.Header testRequest !! "Content-Type" = Some ["application/json"]
  /\ http.Method testRequest = "POST".
Proof.
  assert (H : IsSend anyAuthority plainQuote unit plainMarshal plainRequest
    (serverReplying 200) tt testURL testEvent
    (ofWebhookPayload (BuildWebhookPayload testEvent))
    (testSendWebhook (serverReplying 200) tt testURL testEvent))
    by (right; split; reflexivity).
  assert (Hin : In (Sent testRequest)
        (fst (testSendWebhook (serverReplying 200) tt testURL testEvent)))
    by (left; reflexivity).
  split; [exact H|]. split; [exact Hin|].
  destruct (Send_request_shape _ _ _ _ _ _ _ _ _ _ _ _ H Hin)
    as (_ & body & built & _ & Hb & _ & Hct & Hm & _).
  split; [exact Hct|]. rewrite Hm.
  injection Hb as <-. reflexivity.
Defined.

Lemma Send_same_early_failure_witness :
  (Validate noRepository <> None
   \/ Strings.TrimSpace testURL = ""
   \/ ~ AcceptedURL anyAuthority testURL)
  /\ testSendSlack (serverReplying 200) tt testURL noRepository
     = testSendWebhook (serverReplying 200) tt testURL noRepository.
Proof.
  assert (H : Validate noRepository <> None
   \/ Strings.TrimSpace testURL = ""
   \/ ~ AcceptedURL anyAuthority testURL)
    by (left; vm_compute; discriminate).
  split; [exact H|].
  exact (Send_same_early_failure anyAuthority plainQuote unit plainMarshal
           plainRequest (serverReplying 200) tt testURL noRepository H).
Defined.

Lemma Send_errors_wrap_cause_witness :
  IsSend anyAuthority plainQuote unit plainMarshal plainRequest
    (serverReplying 200) tt "example.com/hook" testEvent
    (ofSlackPayload (BuildSlackPayload testEvent))
    (testSendSlack (serverReplying 200) tt "example.com/hook" testEvent)
  /\ exists err,
       snd (testSendSlack (serverReplying 200) tt "example.com/hook" testEvent)
       = Some err
       /\ (err = errors.New "webhook URL is required"
           \/ (exists resp,
                 Delivered anyAuthority unit plainMarshal plainRequest
                   (serverReplying 200) tt "example.com/hook"
                   (ofSlackPayload (BuildSlackPayload testEvent)) resp
                 /\ ~ 200 <= http.StatusCode resp <= 299
                 /\ err = errors.New ("webhook returned status "
                                      ++ Itoa (http.StatusCode resp)))
           \/ (exists prefix cause,
                 In prefix wrapPrefixes
                 /\ Unwrap err = Some cause
                 /\ Error plainQuote err = prefix ++ Error plainQuote cause
                 /\ (prefix = "invalid event: " ->
                       Validate testEvent = Some cause)
                 /\ (prefix = "invalid webhook URL: " ->
                       url.ParseRequestURI anyAuthority "example.com/hook"
                       = inr cause)
                 /\ (prefix = "marshal payload: " ->
                       plainMarshal (ofSlackPayload (BuildSlackPayload testEvent))
                       = inr cause))).
Proof.
  assert (H : IsSend anyAuthority plainQuote unit plainMarshal plainRequest
    (serverReplying 200) tt "example.com/hook" testEvent
    (ofSlackPayload (BuildSlackPayload testEvent))
    (testSendSlack (serverReplying 200) tt "example.com/hook" testEvent))
    by (left; split; reflexivity).
  split; [exact H|]. eexists. split; [vm_compute; reflexivity|].
  apply (Send_errors_wrap_cause _ _ _ _ _ _ _ _ _ _ _ _ H).
  vm_compute; reflexivity.
Defined.

Lemma Send_url_bad_bytes_witness :
  Validate testEvent = None
  /\ url.stringContainsCTLByte (testURL ++ String (ascii_of_nat 10) "") = true
  /\ RejectsURL plainQuote
       (testSendSlack (serverReplying 200) tt
          (testURL ++ String (ascii_of_nat 10) "") testEvent)
  /\ RejectsURL plainQuote
       (testSendWebhook (serverReplying 200) tt
          (testURL ++ String (ascii_of_nat 10) "") testEvent).
Proof.
  split; [vm_compute; reflexivity|]. split; [vm_compute; reflexivity|].
  apply (Send_url_bad_bytes anyAuthority plainQuote unit plainMarshal
           plainRequest (serverReplying 200) tt
           (testURL ++ String (ascii_of_nat 10) "") testEvent eq_refl).
  left. vm_compute; reflexivity.
Defined.

Lemma timestamp_round_trip_witness :
  Date_of (UTC (DetectedAt testEventEast)) = (2026, 2, 26)
  /\ 0 <= 2026 <= 9999
  /\ exists hour minute second,
       readRFC3339UTC (wp_DetectedAt (BuildWebhookPayload testEventEast))
       = Some (2026, 2, 26, hour, minute, second)
       /\ sec (Date 2026 2 26 hour minute second 0 UTCLoc)
          = sec (DetectedAt testEventEast).
Proof.
  split; [vm_compute; reflexivity|]. split; [lia|].
  apply (timestamp_round_trip testEventEast 2026 2 26);
    [vm_compute; reflexivity | lia].
Defined.

Lemma valid_event_renders_nonempty_witness :
  Validate testEvent = None
  /\ shortSHA testEvent <> "".
Proof.
  split; [vm_compute; reflexivity|].
  exact (proj2 (valid_event_renders_nonempty testEvent eq_refl)).
Defined.

Lemma location_irrelevant_witness :
  fields testEvent = fields testEventEast
  /\ sec (DetectedAt testEvent) = sec (DetectedAt testEventEast)
  /\ nsec (DetectedAt testEvent) = nsec (DetectedAt testEventEast)
  /\ BuildSlackPayload testEvent = BuildSlackPayload testEventEast
  /\ BuildWebhookPayload testEvent = BuildWebhookPayload testEventEast.
Proof.
  split; [reflexivity|]. split; [vm_compute; reflexivity|].
  split; [reflexivity|].
  apply (location_irrelevant testEvent testEventEast);
    [reflexivity | vm_compute; reflexivity | reflexivity].
Defined.

Lemma Send_closes_body_witness :
  IsSend anyAuthority plainQuote unit plainMarshal plainRequest
    (serverReplying 400) tt testURL testEvent
    (ofWebhookPayload (BuildWebhookPayload testEvent))
    (testSendWebhook (serverReplying 400) tt testURL testEvent)
  /\ In (Sent testRequest)
        (fst (testSendWebhook (serverReplying 400) tt testURL testEvent))
  /\ http.Do (Client (serverReplying 400)) testRequest
     = inl {| http.StatusCode := 400 |}
  /\ fst (testSendWebhook (serverReplying 400) tt testURL testEvent)
     = [Sent testRequest; BodyClosed].
Proof.
  assert (H : IsSend anyAuthority plainQuote unit plainMarshal plainRequest
    (serverReplying 400) tt testURL testEvent
    (ofWebhookPayload (BuildWebhookPayload testEvent))
    (testSendWebhook (serverReplying 400) tt testURL testEvent))
    by (right; split; reflexivity).
  assert (Hin : In (Sent testRequest)
        (fst (testSendWebhook (serverReplying 400) tt testURL testEvent)))
    by (left; reflexivity).
  split; [exact H|]. split; [exact Hin|]. split; [reflexivity|].
  exact (proj1 (Send_closes_body _ _ _ _ _ _ _ _ _ _ _ H)
           testRequest {| http.StatusCode := 400 |} Hin eq_refl).
Defined.
